(** * Rover: the four-wheel velocity control loop of [demo.py]

    A shallow embedding of the control script and the properties of its
    loop: ordering of device operations inside one tick, the counters of the
    motion sequence, the setpoint table and the halt path.

    Modelling choices.
    - Python floats are modelled as exact canonical rationals ([Qc]).  The
      properties below are about control flow, counters and literal
      constants; none relies on rounding.  The literal [-0.0] is the
      rational zero.
    - Python's unbounded integers ([update], [print_count], [sequence]) are
      [Z]; list positions are [nat].
    - The script talks to devices (button, encoders, PID objects, motors,
      console, clock).  Every device operation is recorded as an [Event], in
      program order, next to the explicit state of the script.
    - What the devices report (button and encoder readings) is an input of
      the model: one [Input] per evaluation of the [while] condition. *)

From Stdlib Require Import ZArith QArith Qcanon String Lia.
From stdpp Require Import base numbers list.

Local Open Scope Z_scope.

(** ** Numbers *)

(** The decimal literal [n/d] as a float. *)
Definition lit (n : Z) (d : positive) : Qc := Q2Qc (n # d).

(** An [int] used where a float is expected. *)
Definition of_int (n : Z) : Qc := Q2Qc (inject_Z n).

(** Python's [min(a, b)]: the first argument unless the second is smaller. *)
Definition py_min (a b : Qc) : Qc := if Qclt_le_dec b a then b else a.

(** ** Configuration constants (lines 24-33, 46, 53-56) *)

Definition UPDATES : Z := 100.
Definition UPDATE_RATE : Qc := (1 / of_int UPDATES)%Qc.
Definition TIME_FOR_EACH_MOVE : Z := 2.
Definition UPDATES_PER_MOVE : Z := TIME_FOR_EACH_MOVE * UPDATES.
Definition PRINT_DIVIDER : Z := 4.

Definition VEL_KP : Qc := lit 30 1.
Definition VEL_KI : Qc := lit 0 1.
Definition VEL_KD : Qc := lit 4 10.

Definition ENCODER_NAMES : list string := ["RR"; "RL"; "FL"; "FR"]%string.

Definition FL : nat := 2.
Definition FR : nat := 3.
Definition RL : nat := 1.
Definition RR : nat := 0.

(** [motor2040.NUM_MOTORS]: the board constant is imported, not defined in
    the script; the board drives four motors, and the script builds
    four-element lists next to it. *)
Definition NUM_MOTORS : nat := 4.

(** ** Devices *)

(** Modelled from the spec: the [PID] class is imported from the vendor
    library and is absent from the script.  The state is the spec's PIDState:
    gains, sample period, setpoint, integral accumulator, previous error. *)
Record PID := mkPID {
  kp : Qc;
  ki : Qc;
  kd : Qc;
  sample_rate : Qc;
  setpoint : Qc;
  error_sum : Qc;
  last_error : Qc
}.

(** Modelled from the spec: [PID.calculate], the discrete PID of the spec:
    error = setpoint - measured; the integral accumulates error * period;
    the derivative is (error - previous error) / period; the output is
    Kp*error + Ki*integral + Kd*derivative; the previous error is updated
    after the call. *)
Definition calculate (p : PID) (value : Qc) : Qc * PID :=
  let error := (setpoint p - value)%Qc in
  let integral := (error_sum p + error * sample_rate p)%Qc in
  let derivative := ((error - last_error p) / sample_rate p)%Qc in
  let output := (kp p * error + ki p * integral + kd p * derivative)%Qc in
  (output,
   mkPID (kp p) (ki p) (kd p) (sample_rate p) (setpoint p) integral error).

(** The assignment [pid.setpoint = v]. *)
Definition with_setpoint (v : Qc) (p : PID) : PID :=
  mkPID (kp p) (ki p) (kd p) (sample_rate p) v (error_sum p) (last_error p).

(** Modelled from the spec: the constructor [PID(kp, ki, kd, sample_rate)].
    The spec leaves the construction-time setpoint open; the theorems below
    hold for every initial controller list, and the concrete runs use a zero
    setpoint with cleared accumulators. *)
Definition PID_new (p i d rate : Qc) : PID :=
  mkPID p i d rate (lit 0 1) (lit 0 1) (lit 0 1).

(** Modelled from the spec: the [Motor] class is imported from the vendor
    library.  The actuator holds the last commanded value until it is
    changed, and [enable]/[disable] gate power delivery. *)
Record Motor := mkMotor {
  m_speed : Qc;
  m_enabled : bool
}.

Definition with_speed (v : Qc) (m : Motor) : Motor := mkMotor v (m_enabled m).
Definition disable (m : Motor) : Motor := mkMotor (m_speed m) false.

(** What [Encoder.capture()] returns, as far as the script reads it. *)
Record Capture := mkCapture {
  revolutions_per_second : Qc
}.

(** What the devices report during one evaluation of the loop condition and
    the iteration that follows it: the button, and the velocity each of the
    encoders would report. *)
Record Input := mkInput {
  pressed : bool;
  readings : nat -> Qc
}.

(** ** Device operations, in program order *)

Inductive Event :=
| EvButton (b : bool)                          (* user_sw.raw() *)
| EvCapture (i : nat) (rps : Qc)               (* encoders[i].capture() *)
| EvCalculate (i : nat) (sp value accel : Qc)  (* vel_pids[i].calculate(value) *)
| EvSpeedGet (i : nat) (v : Qc)                (* motors[i].speed() *)
| EvSpeedSet (i : nat) (v : Qc)                (* motors[i].speed(v) *)
| EvPrint (name : string) (rps : Qc)           (* print(name, "=", rps, end=", ") *)
| EvPrintLn                                    (* print() *)
| EvSetpoint (i : nat) (v : Qc)                (* vel_pids[i].setpoint = v *)
| EvSleep (t : Qc)                             (* time.sleep(t) *)
| EvDisable (i : nat).                         (* motors[i].disable() *)

(** ** The script's variables *)

Record State := mkState {
  update : Z;
  print_count : Z;
  sequence : Z;
  vel_pids : list PID;
  motors : list Motor;
  captures : list (option Capture)
}.

Definition with_update (v : Z) (s : State) : State :=
  mkState v (print_count s) (sequence s) (vel_pids s) (motors s) (captures s).
Definition with_print_count (v : Z) (s : State) : State :=
  mkState (update s) v (sequence s) (vel_pids s) (motors s) (captures s).
Definition with_sequence (v : Z) (s : State) : State :=
  mkState (update s) (print_count s) v (vel_pids s) (motors s) (captures s).
Definition with_vel_pids (v : list PID) (s : State) : State :=
  mkState (update s) (print_count s) (sequence s) v (motors s) (captures s).
Definition with_motors (v : list Motor) (s : State) : State :=
  mkState (update s) (print_count s) (sequence s) (vel_pids s) v (captures s).
Definition with_captures (v : list (option Capture)) (s : State) : State :=
  mkState (update s) (print_count s) (sequence s) (vel_pids s) (motors s) v.

(** ** Programs: state, exceptions and the log of device operations *)

Inductive exn := IndexError | AttributeError.

Inductive outcome (A : Type) :=
| Ok (a : A)
| Raise (e : exn).
Arguments Ok {A} a.
Arguments Raise {A} e.

(** A program maps the state to an outcome, the state it leaves and the
    device operations it performed.  An exception keeps both. *)
Definition Prog (A : Type) : Type := State -> outcome A * State * list Event.

Definition ret {A} (a : A) : Prog A := fun s => (Ok a, s, []).

Definition bind {A B} (m : Prog A) (k : A -> Prog B) : Prog B :=
  fun s =>
    match m s with
    | (Ok a, s1, e1) =>
        match k a s1 with
        | (r, s2, e2) => (r, s2, e1 ++ e2)
        end
    | (Raise x, s1, e1) => (Raise x, s1, e1)
    end.

Definition raise {A} (x : exn) : Prog A := fun s => (Raise x, s, []).
Definition gets {A} (f : State -> A) : Prog A := fun s => (Ok (f s), s, []).
Definition modify (f : State -> State) : Prog unit := fun s => (Ok tt, f s, []).
Definition emit (e : Event) : Prog unit := fun s => (Ok tt, s, [e]).

Declare Scope prog_scope.
Delimit Scope prog_scope with prog.
Notation "'let*' x ':=' m 'in' k" := (bind m (fun x => k))
  (at level 10, x name, m at level 100, k at level 200) : prog_scope.
Notation "m >> k" := (bind m (fun _ => k))
  (at level 100, k at level 200, right associativity) : prog_scope.
Local Open Scope prog_scope.

(** [l[i]] on a Python list: [IndexError] past the end. *)
Definition index {A} (l : list A) (i : nat) : Prog A :=
  match l !! i with
  | Some a => ret a
  | None => raise IndexError
  end.

(** [for x in l: body(x)]. *)
Fixpoint for_each {A} (l : list A) (body : A -> Prog unit) : Prog unit :=
  match l with
  | [] => ret tt
  | x :: r => body x >> for_each r body
  end.

(** [range(n)]. *)
Definition range (n : nat) : list nat := seq 0 n.

(** *** The devices as the script uses them *)

(** [user_sw.raw()]. *)
Definition user_sw_raw (inp : Input) : Prog bool :=
  emit (EvButton (pressed inp)) >> ret (pressed inp).

(** [encoders[i].capture()]; the list [encoders] has four entries. *)
Definition encoder_capture (inp : Input) (i : nat) : Prog Capture :=
  if (i <? 4)%nat
  then emit (EvCapture i (readings inp i)) >> ret (mkCapture (readings inp i))
  else raise IndexError.

(** [captures[i] = c]. *)
Definition captures_set (i : nat) (c : Capture) : Prog unit :=
  let* cs := gets captures in
  let* _ := index cs i in
  modify (with_captures (<[i := Some c]> cs)).

(** [captures[i].revolutions_per_second]. *)
Definition capture_rps (i : nat) : Prog Qc :=
  let* cs := gets captures in
  let* c := index cs i in
  match c with
  | Some c => ret (revolutions_per_second c)
  | None => raise AttributeError
  end.

(** [vel_pids[i].calculate(value)]. *)
Definition pid_calculate (i : nat) (value : Qc) : Prog Qc :=
  let* ps := gets vel_pids in
  let* p := index ps i in
  let r := calculate p value in
  modify (with_vel_pids (<[i := r.2]> ps)) >>
  emit (EvCalculate i (setpoint p) value r.1) >>
  ret r.1.

(** [vel_pids[i].setpoint = v]. *)
Definition set_setpoint (i : nat) (v : Qc) : Prog unit :=
  let* ps := gets vel_pids in
  let* p := index ps i in
  modify (with_vel_pids (<[i := with_setpoint v p]> ps)) >>
  emit (EvSetpoint i v).

(** [motors[i].speed()]. *)
Definition motor_speed (i : nat) : Prog Qc :=
  let* ms := gets motors in
  let* m := index ms i in
  emit (EvSpeedGet i (m_speed m)) >>
  ret (m_speed m).

(** [motors[i].speed(v)]. *)
Definition motor_set_speed (i : nat) (v : Qc) : Prog unit :=
  let* ms := gets motors in
  let* m := index ms i in
  modify (with_motors (<[i := with_speed v m]> ms)) >>
  emit (EvSpeedSet i v).

(** [m.disable()] for the motor at position [i]. *)
Definition motor_disable (i : nat) : Prog unit :=
  let* ms := gets motors in
  let* m := index ms i in
  modify (with_motors (<[i := disable m]> ms)) >>
  emit (EvDisable i).

(** ** Helper functions for driving in common directions (lines 81-106) *)

Definition drive_forward (speed : Qc) : Prog unit :=
  set_setpoint FL speed >>
  set_setpoint FR speed >>
  set_setpoint RL speed >>
  set_setpoint RR speed.

Definition turn_right (speed : Qc) : Prog unit :=
  set_setpoint FL speed >>
  set_setpoint FR (- speed)%Qc >>
  set_setpoint RL speed >>
  set_setpoint RR (- speed)%Qc.

Definition strafe_right (speed : Qc) : Prog unit :=
  set_setpoint FL speed >>
  set_setpoint FR (- speed)%Qc >>
  set_setpoint RL (- speed)%Qc >>
  set_setpoint RR speed.

Definition stop : Prog unit :=
  set_setpoint FL (of_int 0) >>
  set_setpoint FR (of_int 0) >>
  set_setpoint RL (of_int 0) >>
  set_setpoint RR (of_int 0).

(** ** The body of the [while] loop (lines 116-168), in source order *)

(** Lines 117-118: capture the state of all the encoders. *)
Definition capture_all (inp : Input) : Prog unit :=
  for_each (range NUM_MOTORS) (fun i =>
    let* c := encoder_capture inp i in
    captures_set i c).

(** Line 121: computed on every tick and read by nothing afterwards. *)
Definition percent_along (u : Z) : Qc :=
  py_min (of_int u / of_int UPDATES_PER_MOVE)%Qc (lit 1 1).

(** Lines 123-128: one PID step and one speed command per motor. *)
Definition velocity_step (i : nat) : Prog unit :=
  let* value := capture_rps i in
  let* accel := pid_calculate i value in
  let* held := motor_speed i in
  motor_set_speed i (held + accel * UPDATE_RATE)%Qc.

Definition velocity_all : Prog unit :=
  for_each (range NUM_MOTORS) velocity_step.

(** Lines 131-137: the diagnostic print on every [PRINT_DIVIDER]-th tick. *)
Definition print_values : Prog unit :=
  let* pc := gets print_count in
  (if pc =? 0 then
     let* n := gets (fun s => length (motors s)) in
     for_each (range n) (fun i =>
       let* name := index ENCODER_NAMES i in
       let* v := capture_rps i in
       emit (EvPrint name v)) >>
     emit EvPrintLn
   else ret tt) >>
  modify (fun s => with_print_count ((print_count s + 1) mod PRINT_DIVIDER) s).

(** Lines 139-150: move along in time, and on to the next part of the
    sequence at the end of a movement. *)
Definition advance : Prog unit :=
  modify (fun s => with_update (update s + 1) s) >>
  let* u := gets update in
  if u >=? UPDATES_PER_MOVE then
    modify (with_update 0) >>
    modify (fun s => with_sequence (sequence s + 1) s) >>
    let* q := gets sequence in
    if q >=? 7 then modify (with_sequence 0) else ret tt
  else ret tt.

(** Lines 153-166: set the setpoints, based on the sequence. *)
Definition dispatch : Prog unit :=
  let* q := gets sequence in
  if q =? 0 then drive_forward (lit 9 10)
  else if q =? 1 then drive_forward (- lit 9 10)%Qc
  else if q =? 2 then turn_right (lit 9 10)
  else if q =? 3 then turn_right (- lit 0 1)%Qc
  else if q =? 4 then strafe_right (lit 9 10)
  else if q =? 5 then strafe_right (- lit 9 10)%Qc
  else if q =? 6 then stop
  else ret tt.

Definition loop_body (inp : Input) : Prog unit :=
  capture_all inp >>
  let* u := gets update in
  let _ := percent_along u in
  velocity_all >>
  print_values >>
  advance >>
  dispatch >>
  emit (EvSleep UPDATE_RATE).

(** ** The [while] loop and the exit path (lines 114, 170-172) *)

(** [while user_sw.raw() is not True: ...], driven by the inputs observed so
    far.  The result tells whether the loop was left ([true]) or is still
    running when the observations end ([false]). *)
Fixpoint main_loop (ins : list Input) : Prog bool :=
  match ins with
  | [] => ret false
  | inp :: rest =>
      let* b := user_sw_raw inp in
      if b then ret true
      else loop_body inp >> main_loop rest
  end.

(** Lines 171-172: [for m in motors: m.disable()]. *)
Definition disable_all : Prog unit :=
  let* n := gets (fun s => length (motors s)) in
  for_each (range n) motor_disable.

(** The script from the loop on. *)
Definition program (ins : list Input) : Prog bool :=
  let* left := main_loop ins in
  (if left then disable_all else ret tt) >>
  ret left.

(** The state in which the loop is first reached (lines 69-77, 109-111):
    counters at zero, the controllers as constructed, the motors enabled,
    no capture taken yet. *)
Definition fresh (pids : list PID) (ms : list Motor) : State :=
  mkState 0 0 0 pids ms (replicate NUM_MOTORS None).

(** The concrete start of the script: four controllers with the configured
    gains, four enabled motors holding speed zero. *)
Definition start : State :=
  fresh (replicate NUM_MOTORS (PID_new VEL_KP VEL_KI VEL_KD UPDATE_RATE))
        (replicate NUM_MOTORS (mkMotor (lit 0 1) true)).

(** Projections of a run. *)
Definition result_of {A} (r : outcome A * State * list Event) : outcome A := r.1.1.
Definition state_of {A} (r : outcome A * State * list Event) : State := r.1.2.
Definition events_of {A} (r : outcome A * State * list Event) : list Event := r.2.

(** An input with the button released and every wheel at rest. *)
Definition idle : Input := mkInput false (fun _ => lit 0 1).
Definition halt : Input := mkInput true (fun _ => lit 0 1).

(** ** One tick, described as a function

    The effect of [loop_body] on a state whose three lists have four
    entries, written out field by field.  [loop_body_run] below proves that
    the loop body computes exactly this. *)

Definition capture_events (inp : Input) : list Event :=
  [EvCapture 0 (readings inp 0); EvCapture 1 (readings inp 1);
   EvCapture 2 (readings inp 2); EvCapture 3 (readings inp 3)].

Definition captured (inp : Input) : list (option Capture) :=
  [Some (mkCapture (readings inp 0)); Some (mkCapture (readings inp 1));
   Some (mkCapture (readings inp 2)); Some (mkCapture (readings inp 3))].

(** The speed command sent to a motor holding [m], driven by controller [p]
    that measures [v]. *)
Definition next_speed (p : PID) (m : Motor) (v : Qc) : Qc :=
  (m_speed m + (calculate p v).1 * UPDATE_RATE)%Qc.

Definition velocity_events (i : nat) (p : PID) (m : Motor) (v : Qc) : list Event :=
  [EvCalculate i (setpoint p) v (calculate p v).1;
   EvSpeedGet i (m_speed m);
   EvSpeedSet i (next_speed p m v)].

Definition print_events (pc : Z) (inp : Input) : list Event :=
  if pc =? 0 then
    [EvPrint "RR" (readings inp 0); EvPrint "RL" (readings inp 1);
     EvPrint "FL" (readings inp 2); EvPrint "FR" (readings inp 3); EvPrintLn]
  else [].

Definition next_update (u : Z) : Z :=
  if u + 1 >=? UPDATES_PER_MOVE then 0 else u + 1.

Definition next_sequence (u q : Z) : Z :=
  if u + 1 >=? UPDATES_PER_MOVE
  then (if q + 1 >=? 7 then 0 else q + 1)
  else q.

(** The setpoints the dispatch writes for sequence value [q], as
    (FL, FR, RL, RR); nothing is written for any other value. *)
Definition table (q : Z) : option (Qc * Qc * Qc * Qc) :=
  let s := lit 9 10 in
  let z := (- lit 0 1)%Qc in
  if q =? 0 then Some (s, s, s, s)
  else if q =? 1 then Some (- s, - s, - s, - s)%Qc
  else if q =? 2 then Some (s, - s, s, - s)%Qc
  else if q =? 3 then Some (z, - z, z, - z)%Qc
  else if q =? 4 then Some (s, - s, - s, s)%Qc
  else if q =? 5 then Some (- s, - - s, - - s, - s)%Qc
  else if q =? 6 then Some (of_int 0, of_int 0, of_int 0, of_int 0)
  else None.

Definition dispatch_events (q : Z) : list Event :=
  match table q with
  | Some (fl, fr, rl, rr) =>
      [EvSetpoint FL fl; EvSetpoint FR fr; EvSetpoint RL rl; EvSetpoint RR rr]
  | None => []
  end.

Definition dispatched (q : Z) (p0 p1 p2 p3 : PID) : list PID :=
  match table q with
  | Some (fl, fr, rl, rr) =>
      [with_setpoint rr p0; with_setpoint rl p1;
       with_setpoint fl p2; with_setpoint fr p3]
  | None => [p0; p1; p2; p3]
  end.

(** ** Reading a log *)

Definition is_capture (e : Event) : bool :=
  match e with EvCapture _ _ => true | _ => false end.
Definition is_calculate (e : Event) : bool :=
  match e with EvCalculate _ _ _ _ => true | _ => false end.

(** Every operation of kind [a] in the log comes before every operation of
    kind [b]. *)
Definition precedes (a b : Event -> bool) (tr : list Event) : Prop :=
  forall (i j : nat) (x y : Event),
    tr !! i = Some x -> tr !! j = Some y ->
    a x = true -> b y = true -> (i < j)%nat.

(** The same, as a check that runs: from the first operation of kind [b]
    on, no operation of kind [a] occurs. *)
Fixpoint precedesb (a b : Event -> bool) (tr : list Event) : bool :=
  match tr with
  | [] => true
  | e :: r => if b e then forallb (fun x => negb (a x)) (e :: r)
              else precedesb a b r
  end.

(** The encoder captures of a log: wheel and reported velocity. *)
Definition captures_in (tr : list Event) : list (nat * Qc) :=
  omap (fun e => match e with EvCapture i v => Some (i, v) | _ => None end) tr.

(** The PID calls of a log: wheel, the setpoint the call used, and the
    measured value it consumed. *)
Definition calculations_in (tr : list Event) : list (nat * Qc * Qc) :=
  omap (fun e => match e with EvCalculate i sp v _ => Some (i, sp, v) | _ => None end) tr.


(** The setpoint assignments of a log. *)
Definition setpoints_in (tr : list Event) : list (nat * Qc) :=
  omap (fun e => match e with EvSetpoint i v => Some (i, v) | _ => None end) tr.


(** ** Well-formed states and inputs *)

(** The three device lists have the four entries the script builds. *)
Definition wf (s : State) : Prop :=
  length (vel_pids s) = 4%nat /\
  length (motors s) = 4%nat /\
  length (captures s) = 4%nat.

Definition released (inp : Input) : Prop := pressed inp = false.


(** ** Further readers of a log *)

(** The button reads of a log. *)
Definition buttons_in (tr : list Event) : list bool :=
  omap (fun e => match e with EvButton b => Some b | _ => None end) tr.

(** The sleeps of a log, with the time asked for. *)
Definition sleeps_in (tr : list Event) : list Qc :=
  omap (fun e => match e with EvSleep t => Some t | _ => None end) tr.

(** The motors a log disables. *)
Definition disables_in (tr : list Event) : list nat :=
  omap (fun e => match e with EvDisable i => Some i | _ => None end) tr.

(** The values a log prints, with their labels, and its line ends. *)
Definition prints_in (tr : list Event) : list (string * Qc) :=
  omap (fun e => match e with EvPrint n v => Some (n, v) | _ => None end) tr.
Definition newlines_in (tr : list Event) : list unit :=
  omap (fun e => match e with EvPrintLn => Some tt | _ => None end) tr.

(** The operations of the velocity loop, in the order a log has them. *)
Inductive velocity_op := OpCalculate | OpSpeedGet | OpSpeedSet.

Definition velocity_ops_in (tr : list Event) : list (velocity_op * nat) :=
  omap (fun e => match e with
                 | EvCalculate i _ _ _ => Some (OpCalculate, i)
                 | EvSpeedGet i _ => Some (OpSpeedGet, i)
                 | EvSpeedSet i _ => Some (OpSpeedSet, i)
                 | _ => None
                 end) tr.

(** The sum of a list of floats. *)
Definition total (l : list Qc) : Qc := foldr Qcplus (lit 0 1) l.

(** The states [s] and [s'] differ at most in the setpoints of their
    controllers: the counters, motors and captures are the same, and so are
    the controllers once their setpoints are overwritten with one value. *)
Definition same_but_setpoints (s s' : State) : Prop :=
  update s' = update s /\
  print_count s' = print_count s /\
  sequence s' = sequence s /\
  motors s' = motors s /\
  captures s' = captures s /\
  with_setpoint (lit 0 1) <$> vel_pids s' = with_setpoint (lit 0 1) <$> vel_pids s.


(** * Proofs *)

(** Arithmetic stays folded while programs are evaluated symbolically. *)
Local Opaque Qcplus Qcmult Qcminus Qcopp Qcdiv Z.add Z.geb Z.eqb Z.modulo
  lit of_int UPDATE_RATE calculate.

Ltac four l :=
  destruct l as [|? [|? [|? [|? [|? ?]]]]]; try discriminate.

(** Replace a well-formed state by its fields, the lists written out. *)
Ltac expose s H :=
  let Hp := fresh "Hp" in
  let Hm := fresh "Hm" in
  let Hc := fresh "Hc" in
  destruct s as [?u ?pc ?q ?ps ?ms ?cs];
  destruct H as (Hp & Hm & Hc); cbn in Hp, Hm, Hc;
  four ps; four ms; four cs; clear Hp Hm Hc.

(** Finish a goal about the log of one loop body, once the state is exposed
    and [loop_body_run] has been used: split on the print test and on the
    table row, then compute. *)
Ltac tick_cases pc :=
  cbn [events_of state_of result_of fst snd];
  unfold print_events, dispatch_events, dispatched;
  destruct (pc =? 0);
  match goal with
  | |- context [table ?q] => destruct (table q) as [[[[? ?] ?] ?]|]
  end.

Lemma dispatch_run u pc q p0 p1 p2 p3 ms cs :
  dispatch (mkState u pc q [p0; p1; p2; p3] ms cs) =
  (Ok tt, mkState u pc q (dispatched q p0 p1 p2 p3) ms cs, dispatch_events q).
Proof.
  unfold dispatch, dispatched, dispatch_events, table. cbn.
  repeat (destruct (q =? _); [reflexivity|]). reflexivity.
Qed.

Section OneTick.

Variable inp : Input.
Variables p0 p1 p2 p3 : PID.
Variables m0 m1 m2 m3 : Motor.

Lemma capture_all_run u pc q c0 c1 c2 c3 ps ms :
  capture_all inp (mkState u pc q ps ms [c0; c1; c2; c3]) =
  (Ok tt, mkState u pc q ps ms (captured inp), capture_events inp).
Proof. reflexivity. Qed.

Lemma velocity_all_run u pc q :
  velocity_all (mkState u pc q [p0; p1; p2; p3] [m0; m1; m2; m3] (captured inp)) =
  (Ok tt,
   mkState u pc q
     [(calculate p0 (readings inp 0)).2; (calculate p1 (readings inp 1)).2;
      (calculate p2 (readings inp 2)).2; (calculate p3 (readings inp 3)).2]
     [with_speed (next_speed p0 m0 (readings inp 0)) m0; with_speed (next_speed p1 m1 (readings inp 1)) m1;
      with_speed (next_speed p2 m2 (readings inp 2)) m2; with_speed (next_speed p3 m3 (readings inp 3)) m3]
     (captured inp),
   velocity_events 0 p0 m0 (readings inp 0) ++ velocity_events 1 p1 m1 (readings inp 1) ++
   velocity_events 2 p2 m2 (readings inp 2) ++ velocity_events 3 p3 m3 (readings inp 3)).
Proof. reflexivity. Qed.

Lemma print_values_run u pc q ps a0 a1 a2 a3 :
  print_values (mkState u pc q ps [a0; a1; a2; a3] (captured inp)) =
  (Ok tt,
   mkState u ((pc + 1) mod PRINT_DIVIDER) q ps [a0; a1; a2; a3] (captured inp),
   print_events pc inp).
Proof.
  unfold print_values, print_events. cbn.
  destruct (pc =? 0); reflexivity.
Qed.

Lemma advance_run u pc q ps ms cs :
  advance (mkState u pc q ps ms cs) =
  (Ok tt, mkState (next_update u) pc (next_sequence u q) ps ms cs, []).
Proof.
  unfold advance, next_update, next_sequence. cbn.
  destruct (u + 1 >=? UPDATES_PER_MOVE); cbn; [|reflexivity].
  destruct (q + 1 >=? 7); reflexivity.
Qed.

(** The whole loop body, on any state with four-entry lists. *)
Lemma loop_body_run u pc q c0 c1 c2 c3 :
  loop_body inp (mkState u pc q [p0; p1; p2; p3] [m0; m1; m2; m3] [c0; c1; c2; c3]) =
  (Ok tt,
   mkState (next_update u) ((pc + 1) mod PRINT_DIVIDER) (next_sequence u q)
     (dispatched (next_sequence u q)
        (calculate p0 (readings inp 0)).2 (calculate p1 (readings inp 1)).2
        (calculate p2 (readings inp 2)).2 (calculate p3 (readings inp 3)).2)
     [with_speed (next_speed p0 m0 (readings inp 0)) m0; with_speed (next_speed p1 m1 (readings inp 1)) m1;
      with_speed (next_speed p2 m2 (readings inp 2)) m2; with_speed (next_speed p3 m3 (readings inp 3)) m3]
     (captured inp),
   capture_events inp ++
   (velocity_events 0 p0 m0 (readings inp 0) ++ velocity_events 1 p1 m1 (readings inp 1) ++
    velocity_events 2 p2 m2 (readings inp 2) ++ velocity_events 3 p3 m3 (readings inp 3)) ++
   print_events pc inp ++
   dispatch_events (next_sequence u q) ++
   [EvSleep UPDATE_RATE]).
Proof.
  unfold loop_body, bind.
  rewrite capture_all_run. cbn [gets update].
  rewrite velocity_all_run, print_values_run, advance_run, dispatch_run.
  reflexivity.
Qed.

End OneTick.

(** ** States with four-entry lists *)

Lemma fresh_wf pids ms :
  length pids = 4%nat -> length ms = 4%nat -> wf (fresh pids ms).
Proof. intros Hp Hm. repeat split; assumption. Qed.

Lemma dispatched_length q p0 p1 p2 p3 :
  length (dispatched q p0 p1 p2 p3) = 4%nat.
Proof.
  unfold dispatched. destruct (table q) as [[[[? ?] ?] ?]|]; reflexivity.
Qed.

(** The loop body never raises on a well-formed state, and leaves one. *)
Lemma loop_body_ok inp s :
  wf s ->
  result_of (loop_body inp s) = Ok tt /\ wf (state_of (loop_body inp s)).
Proof.
  intros H. expose s H. rewrite loop_body_run. split; [reflexivity|].
  repeat split; cbn; auto using dispatched_length.
Qed.

Lemma loop_body_update inp s :
  wf s -> update (state_of (loop_body inp s)) = next_update (update s).
Proof. intros H. expose s H. rewrite loop_body_run. reflexivity. Qed.

Lemma loop_body_sequence inp s :
  wf s ->
  sequence (state_of (loop_body inp s)) = next_sequence (update s) (sequence s).
Proof. intros H. expose s H. rewrite loop_body_run. reflexivity. Qed.

(** After the loop body the controllers hold the table row of the sequence
    value the body leaves, in list order RR, RL, FL, FR. *)
Lemma loop_body_setpoints inp s fl fr rl rr :
  wf s ->
  table (sequence (state_of (loop_body inp s))) = Some (fl, fr, rl, rr) ->
  setpoint <$> vel_pids (state_of (loop_body inp s)) = [rr; rl; fl; fr].
Proof.
  intros H. expose s H. rewrite loop_body_run. cbn [state_of fst snd sequence vel_pids].
  intros Ht. unfold dispatched. rewrite Ht. reflexivity.
Qed.

(** ** The loop over released inputs *)

Lemma main_loop_step inp rest s :
  released inp -> wf s ->
  main_loop (inp :: rest) s =
  (result_of (main_loop rest (state_of (loop_body inp s))),
   state_of (main_loop rest (state_of (loop_body inp s))),
   EvButton false :: events_of (loop_body inp s) ++
     events_of (main_loop rest (state_of (loop_body inp s)))).
Proof.
  intros Hr H. expose s H. rewrite loop_body_run.
  cbn [main_loop]. unfold bind at 1. unfold user_sw_raw. rewrite Hr.
  cbn [bind emit ret app]. unfold bind at 1. rewrite loop_body_run.
  cbn [state_of events_of fst snd].
  destruct (main_loop rest _) as [[r s2] e2]. reflexivity.
Qed.

Lemma main_loop_pressed inp rest s :
  pressed inp = true ->
  main_loop (inp :: rest) s = (Ok true, s, [EvButton true]).
Proof.
  intros Hp. cbn [main_loop]. unfold bind, user_sw_raw, emit, ret.
  rewrite Hp. reflexivity.
Qed.

Lemma main_loop_ok ins : forall s,
  wf s -> Forall released ins ->
  result_of (main_loop ins s) = Ok false /\ wf (state_of (main_loop ins s)).
Proof.
  induction ins as [|inp rest IH]; intros s H Hr.
  - split; [reflexivity|exact H].
  - inversion Hr as [|? ? Hi Hrest]; subst.
    rewrite main_loop_step by assumption.
    apply IH; [apply loop_body_ok; assumption | assumption].
Qed.

(** Running a released prefix first and the rest from the state it leaves. *)
Lemma main_loop_app pre post : forall s,
  wf s -> Forall released pre ->
  main_loop (pre ++ post) s =
  (result_of (main_loop post (state_of (main_loop pre s))),
   state_of (main_loop post (state_of (main_loop pre s))),
   events_of (main_loop pre s) ++
     events_of (main_loop post (state_of (main_loop pre s)))).
Proof.
  induction pre as [|inp rest IH]; intros s H Hr.
  - cbn. destruct (main_loop post s) as [[? ?] ?]. reflexivity.
  - inversion Hr as [|? ? Hi Hrest]; subst.
    cbn [app]. rewrite !main_loop_step by assumption.
    rewrite IH by (try apply loop_body_ok; assumption).
    cbn [result_of state_of events_of fst snd].
    rewrite <- app_comm_cons, <- List.app_assoc. reflexivity.
Qed.

(** ** The counters *)

Lemma UPDATES_PER_MOVE_value : UPDATES_PER_MOVE = 200.
Proof. reflexivity. Qed.

Lemma next_update_mod u :
  0 <= u < 200 -> next_update u = (u + 1) mod 200.
Proof.
  intros Hu. unfold next_update. rewrite UPDATES_PER_MOVE_value.
  destruct (u + 1 >=? 200) eqn:E.
  - apply Z.geb_le in E. replace (u + 1) with 200 by lia. reflexivity.
  - rewrite Z.geb_leb in E. apply Z.leb_gt in E.
    symmetry. apply Z.mod_small. lia.
Qed.

Lemma next_sequence_mod u q :
  0 <= u < 200 -> 0 <= q < 7 ->
  next_sequence u q = (q + (u + 1) / 200) mod 7.
Proof.
  intros Hu Hq. unfold next_sequence. rewrite UPDATES_PER_MOVE_value.
  destruct (u + 1 >=? 200) eqn:E.
  - apply Z.geb_le in E. replace (u + 1) with 200 by lia.
    change (200 / 200) with 1.
    destruct (q + 1 >=? 7) eqn:F.
    + apply Z.geb_le in F. replace (q + 1) with 7 by lia. reflexivity.
    + rewrite Z.geb_leb in F. apply Z.leb_gt in F.
      symmetry. apply Z.mod_small. lia.
  - rewrite Z.geb_leb in E. apply Z.leb_gt in E.
    rewrite Z.div_small by lia. rewrite Z.add_0_r.
    symmetry. apply Z.mod_small. lia.
Qed.

(** From counters in range, [n] released iterations leave
    [update = (u + n) mod 200] and [sequence = (q + (u + n) / 200) mod 7]. *)
Lemma main_loop_counters ins : forall s,
  wf s -> Forall released ins ->
  0 <= update s < 200 -> 0 <= sequence s < 7 ->
  update (state_of (main_loop ins s)) =
    (update s + Z.of_nat (length ins)) mod 200 /\
  sequence (state_of (main_loop ins s)) =
    (sequence s + (update s + Z.of_nat (length ins)) / 200) mod 7.
Proof.
  induction ins as [|inp rest IH]; intros s H Hr Hu Hq.
  - cbn [main_loop ret state_of fst snd length Z.of_nat].
    rewrite Z.add_0_r, Z.div_small, Z.add_0_r, !Z.mod_small by lia. auto.
  - inversion Hr as [|? ? Hi Hrest]; subst.
    rewrite main_loop_step by assumption. cbn [state_of fst snd].
    pose proof (loop_body_ok inp s H) as [_ Hwf].
    pose proof (loop_body_update inp s H) as Eu.
    pose proof (loop_body_sequence inp s H) as Eq.
    rewrite next_update_mod in Eu by assumption.
    rewrite next_sequence_mod in Eq by assumption.
    destruct (IH (state_of (loop_body inp s)) Hwf Hrest) as [IHu IHq].
    + rewrite Eu. apply Z.mod_pos_bound. lia.
    + rewrite Eq. apply Z.mod_pos_bound. lia.
    + unfold state_of in *. rewrite IHu, IHq, Eu, Eq.
      rewrite length_cons, Nat2Z.inj_succ.
      set (n := Z.of_nat (length rest)).
      assert (Hn : 0 <= n) by apply Nat2Z.is_nonneg.
      clearbody n. clear - Hu Hq Hn.
      split.
      * rewrite Zplus_mod_idemp_l. f_equal. lia.
      * rewrite Zplus_mod_idemp_l. f_equal.
        replace (update s + Z.succ n) with (update s + 1 + n) by lia.
        rewrite <- Z.add_assoc. f_equal.
        rewrite (Z.div_mod (update s + 1) 200) at 3 by lia.
        rewrite <- Z.add_assoc, Z.mul_comm, Z.div_add_l by lia.
        reflexivity.
Qed.

(** ** Order of operations in a log *)

Lemma forallb_negb_lookup (a : Event -> bool) tr i x :
  forallb (fun e => negb (a e)) tr = true ->
  tr !! i = Some x -> a x = true -> False.
Proof.
  intros Hall Hi Ha.
  rewrite forallb_forall in Hall.
  assert (Hin : In x tr).
  { apply list_elem_of_In. eapply list_elem_of_lookup_2. exact Hi. }
  specialize (Hall x Hin). rewrite Ha in Hall. discriminate.
Qed.

Lemma precedesb_spec a b tr :
  precedesb a b tr = true <-> precedes a b tr.
Proof.
  induction tr as [|e r IH]; cbn [precedesb].
  - split; [|reflexivity].
    intros _ i j x y Hi. rewrite lookup_nil in Hi. discriminate.
  - destruct (b e) eqn:Hb.
    + split.
      * intros Hall i j x y Hi _ Ha _.
        exfalso. eapply forallb_negb_lookup; eauto.
      * intros Hp. apply forallb_forall. intros x Hin.
        apply list_elem_of_In, list_elem_of_lookup_1 in Hin as [i Hi].
        destruct (a x) eqn:Ha; [|reflexivity].
        specialize (Hp i 0%nat x e Hi eq_refl Ha Hb). lia.
    + rewrite IH. split.
      * intros Hp i j x y Hi Hj Ha Hy.
        destruct j as [|j]; [cbn in Hj; congruence|].
        destruct i as [|i]; [lia|].
        cbn in Hi, Hj. specialize (Hp i j x y Hi Hj Ha Hy). lia.
      * intros Hp i j x y Hi Hj Ha Hy.
        specialize (Hp (S i) (S j) x y Hi Hj Ha Hy). lia.
Qed.

Lemma start_wf : wf start.
Proof. repeat split; reflexivity. Qed.

(** * Properties of the specification *)

(** C8.  On every tick exactly one encoder capture is taken per wheel
    (wheels 0 to 3, each reporting its reading), every capture comes before
    every PID [calculate] call of the tick, and the call for wheel [i]
    consumes the velocity captured for wheel [i] on this tick. *)
Theorem captures_complete_before_pid (inp : Input) (s : State) :
  wf s ->
  captures_in (events_of (loop_body inp s)) =
    [(0%nat, readings inp 0); (1%nat, readings inp 1);
     (2%nat, readings inp 2); (3%nat, readings inp 3)] /\
  precedes is_capture is_calculate (events_of (loop_body inp s)) /\
  (fun c => (c.1.1, c.2)) <$> calculations_in (events_of (loop_body inp s)) =
    captures_in (events_of (loop_body inp s)).
Proof.
  intros H. expose s H. rewrite loop_body_run.
  tick_cases pc; (split; [reflexivity|split; [apply precedesb_spec|]; reflexivity]).
Qed.

Lemma captures_complete_before_pid_witness :
  wf start /\
  captures_in (events_of (loop_body idle start)) =
    [(0%nat, lit 0 1); (1%nat, lit 0 1); (2%nat, lit 0 1); (3%nat, lit 0 1)] /\
  precedes is_capture is_calculate (events_of (loop_body idle start)) /\
  (fun c => (c.1.1, c.2)) <$> calculations_in (events_of (loop_body idle start)) =
    captures_in (events_of (loop_body idle start)).
Proof.
  split; [repeat split; reflexivity|].
  apply (captures_complete_before_pid idle start).
  repeat split; reflexivity.
Defined.









(** ** Speed commands *)







(** ** The setpoint table *)

Lemma table_values :
  table 0 = Some (lit 9 10, lit 9 10, lit 9 10, lit 9 10) /\
  table 1 = Some (lit (-9) 10, lit (-9) 10, lit (-9) 10, lit (-9) 10) /\
  table 2 = Some (lit 9 10, lit (-9) 10, lit 9 10, lit (-9) 10) /\
  table 3 = Some (lit 0 1, lit 0 1, lit 0 1, lit 0 1) /\
  table 4 = Some (lit 9 10, lit (-9) 10, lit (-9) 10, lit 9 10) /\
  table 5 = Some (lit (-9) 10, lit 9 10, lit 9 10, lit (-9) 10) /\
  table 6 = Some (lit 0 1, lit 0 1, lit 0 1, lit 0 1).
Proof. repeat split; vm_compute; reflexivity. Qed.

(** The setpoint assignments of a tick are the table row of the sequence
    value the tick leaves, in the order FL, FR, RL, RR. *)
Lemma loop_body_setpoint_events inp s fl fr rl rr :
  wf s ->
  table (sequence (state_of (loop_body inp s))) = Some (fl, fr, rl, rr) ->
  setpoints_in (events_of (loop_body inp s)) =
    [(FL, fl); (FR, fr); (RL, rl); (RR, rr)].
Proof.
  intros H. expose s H. rewrite loop_body_run.
  cbn [state_of fst snd sequence]. intros Ht.
  cbn [events_of snd]. unfold print_events, dispatch_events. rewrite Ht.
  destruct (pc =? 0); reflexivity.
Qed.

(** C5.  Whenever a tick leaves the sequencer in TurnRight (sequence 2), the
    setpoints it writes are FL = +0.9, FR = -0.9, RL = +0.9, RR = -0.9, and
    the controllers hold them (list order RR, RL, FL, FR); whenever it leaves
    the sequencer in TurnLeft (sequence 3) or Stop (sequence 6), the four
    setpoints written and held are zero. *)
Theorem setpoint_table_rows (inp : Input) (s : State) :
  wf s ->
  (sequence (state_of (loop_body inp s)) = 2 ->
   setpoints_in (events_of (loop_body inp s)) =
     [(FL, lit 9 10); (FR, lit (-9) 10); (RL, lit 9 10); (RR, lit (-9) 10)] /\
   setpoint <$> vel_pids (state_of (loop_body inp s)) =
     [lit (-9) 10; lit 9 10; lit 9 10; lit (-9) 10]) /\
  (sequence (state_of (loop_body inp s)) = 3 \/
   sequence (state_of (loop_body inp s)) = 6 ->
   setpoints_in (events_of (loop_body inp s)) =
     [(FL, lit 0 1); (FR, lit 0 1); (RL, lit 0 1); (RR, lit 0 1)] /\
   setpoint <$> vel_pids (state_of (loop_body inp s)) =
     [lit 0 1; lit 0 1; lit 0 1; lit 0 1]).
Proof.
  intros H.
  destruct table_values as (_ & _ & T2 & T3 & _ & _ & T6).
  split.
  - intros Hq. rewrite <- Hq in T2.
    split; [apply (loop_body_setpoint_events _ _ _ _ _ _ H T2)
           | apply (loop_body_setpoints _ _ _ _ _ _ H T2)].
  - intros [Hq|Hq]; [rewrite <- Hq in T3 | rewrite <- Hq in T6].
    + split; [apply (loop_body_setpoint_events _ _ _ _ _ _ H T3)
             | apply (loop_body_setpoints _ _ _ _ _ _ H T3)].
    + split; [apply (loop_body_setpoint_events _ _ _ _ _ _ H T6)
             | apply (loop_body_setpoints _ _ _ _ _ _ H T6)].
Qed.

Lemma setpoint_table_rows_witness :
  wf (state_of (main_loop (replicate 399 idle) start)) /\
  sequence (state_of (loop_body idle (state_of (main_loop (replicate 399 idle) start)))) = 2 /\
  setpoints_in (events_of (loop_body idle (state_of (main_loop (replicate 399 idle) start)))) =
    [(FL, lit 9 10); (FR, lit (-9) 10); (RL, lit 9 10); (RR, lit (-9) 10)] /\
  wf (state_of (main_loop (replicate 599 idle) start)) /\
  sequence (state_of (loop_body idle (state_of (main_loop (replicate 599 idle) start)))) = 3 /\
  setpoints_in (events_of (loop_body idle (state_of (main_loop (replicate 599 idle) start)))) =
    [(FL, lit 0 1); (FR, lit 0 1); (RL, lit 0 1); (RR, lit 0 1)] /\
  wf (state_of (main_loop (replicate 1199 idle) start)) /\
  sequence (state_of (loop_body idle (state_of (main_loop (replicate 1199 idle) start)))) = 6 /\
  setpoints_in (events_of (loop_body idle (state_of (main_loop (replicate 1199 idle) start)))) =
    [(FL, lit 0 1); (FR, lit 0 1); (RL, lit 0 1); (RR, lit 0 1)].
Proof.
  assert (W6 : wf (state_of (main_loop (replicate 1199 idle) start)))
    by (repeat split; vm_compute; reflexivity).
  assert (Q6 : sequence (state_of (loop_body idle
                 (state_of (main_loop (replicate 1199 idle) start)))) = 6)
    by (vm_compute; reflexivity).
  assert (W2 : wf (state_of (main_loop (replicate 399 idle) start)))
    by (repeat split; vm_compute; reflexivity).
  assert (Q2 : sequence (state_of (loop_body idle
                 (state_of (main_loop (replicate 399 idle) start)))) = 2)
    by (vm_compute; reflexivity).
  assert (W3 : wf (state_of (main_loop (replicate 599 idle) start)))
    by (repeat split; vm_compute; reflexivity).
  assert (Q3 : sequence (state_of (loop_body idle
                 (state_of (main_loop (replicate 599 idle) start)))) = 3)
    by (vm_compute; reflexivity).
  split; [exact W2|]. split; [exact Q2|].
  split; [exact (proj1 (proj1 (setpoint_table_rows idle _ W2) Q2))|].
  split; [exact W3|]. split; [exact Q3|].
  split; [exact (proj1 (proj2 (setpoint_table_rows idle _ W3) (or_introl Q3)))|].
  split; [exact W6|]. split; [exact Q6|].
  exact (proj1 (proj2 (setpoint_table_rows idle _ W6) (or_intror Q6))).
Defined.

(** ** Leaving the loop *)

Lemma disable_all_run u pc q ps m0 m1 m2 m3 cs :
  disable_all (mkState u pc q ps [m0; m1; m2; m3] cs) =
  (Ok tt,
   mkState u pc q ps (disable <$> [m0; m1; m2; m3]) cs,
   [EvDisable 0; EvDisable 1; EvDisable 2; EvDisable 3]).
Proof. reflexivity. Qed.

(** C7.  Once the button reads pressed at the loop condition, after any
    number of iterations with the button released: the script ends normally;
    the inputs after the halt are never looked at; the only operations after
    the halt read are the four [disable] calls, one per motor, so no
    setpoint is assigned, no PID call is made and no speed is commanded; the
    final state is the state the last completed iteration left, with every
    motor disabled. *)
Theorem halt_stops_everything (pre : list Input) (inp : Input) (rest : list Input) (s : State) :
  wf s -> Forall released pre -> pressed inp = true ->
  program (pre ++ inp :: rest) s =
    (Ok true,
     with_motors (disable <$> motors (state_of (main_loop pre s)))
                 (state_of (main_loop pre s)),
     events_of (main_loop pre s) ++
       [EvButton true; EvDisable 0; EvDisable 1; EvDisable 2; EvDisable 3]) /\
  Forall (fun m => m_enabled m = false)
         (motors (state_of (program (pre ++ inp :: rest) s))).
Proof.
  intros H Hr Hp.
  pose proof (main_loop_ok pre s H Hr) as [_ Hwf].
  assert (E : program (pre ++ inp :: rest) s =
    (Ok true,
     with_motors (disable <$> motors (state_of (main_loop pre s)))
                 (state_of (main_loop pre s)),
     events_of (main_loop pre s) ++
       [EvButton true; EvDisable 0; EvDisable 1; EvDisable 2; EvDisable 3])).
  { unfold program. unfold bind at 1.
    rewrite main_loop_app by assumption.
    rewrite (main_loop_pressed inp rest _ Hp).
    cbn [result_of state_of events_of fst snd].
    generalize (main_loop pre s).2. intros e.
    revert Hwf. generalize (state_of (main_loop pre s)). intros sp Hwf.
    expose sp Hwf.
    unfold bind. rewrite disable_all_run. cbn [ret]. rewrite app_nil_r.
    rewrite <- List.app_assoc. reflexivity. }
  split; [exact E|].
  rewrite E. cbn [state_of fst snd with_motors motors].
  apply Forall_fmap, Forall_forall. intros m _. reflexivity.
Qed.

Lemma halt_stops_everything_witness :
  (wf start /\ Forall released [idle; idle] /\ pressed halt = true) /\
  result_of (program ([idle; idle] ++ halt :: [idle; idle]) start) = Ok true /\
  events_of (program ([idle; idle] ++ halt :: [idle; idle]) start) =
    events_of (main_loop [idle; idle] start) ++
      [EvButton true; EvDisable 0; EvDisable 1; EvDisable 2; EvDisable 3].
Proof.
  assert (W : wf start) by (repeat split; reflexivity).
  assert (R : Forall released [idle; idle]) by (repeat constructor).
  split; [split; [exact W | split; [exact R | reflexivity]]|].
  destruct (halt_stops_everything [idle; idle] halt [idle; idle] start W R eq_refl)
    as [E _].
  rewrite E. split; reflexivity.
Defined.

(** ** Runs of many iterations *)

(** The last iteration of a run of released inputs. *)
Lemma main_loop_snoc pre inp s :
  wf s -> Forall released pre -> released inp ->
  state_of (main_loop (pre ++ [inp]) s) =
    state_of (loop_body inp (state_of (main_loop pre s))) /\
  events_of (main_loop (pre ++ [inp]) s) =
    events_of (main_loop pre s) ++
    EvButton false :: events_of (loop_body inp (state_of (main_loop pre s))).
Proof.
  intros H Hr Hi.
  pose proof (main_loop_ok pre s H Hr) as [_ Hwf].
  rewrite main_loop_app by assumption.
  rewrite main_loop_step by assumption.
  cbn [state_of events_of fst snd main_loop ret]. rewrite app_nil_r.
  split; reflexivity.
Qed.

Lemma setpoints_after ins s fl fr rl rr :
  wf s -> Forall released ins -> ins <> [] ->
  table (sequence (state_of (main_loop ins s))) = Some (fl, fr, rl, rr) ->
  setpoint <$> vel_pids (state_of (main_loop ins s)) = [rr; rl; fl; fr].
Proof.
  intros H Hr Hne.
  destruct ins as [|x l _] using rev_ind; [congruence|].
  apply Forall_app in Hr as [Hl Hx]. inversion Hx; subst.
  destruct (main_loop_snoc l x s) as [E _]; try assumption.
  rewrite E. apply loop_body_setpoints.
  apply main_loop_ok; assumption.
Qed.

(** While the sequence stays at 0, every iteration assigns the Forward row. *)
Lemma forward_dwell ins : forall s,
  wf s -> Forall released ins ->
  sequence s = 0 -> 0 <= update s -> update s + Z.of_nat (length ins) < 200 ->
  setpoints_in (events_of (main_loop ins s)) =
    concat (replicate (length ins)
              [(FL, lit 9 10); (FR, lit 9 10); (RL, lit 9 10); (RR, lit 9 10)]).
Proof.
  induction ins as [|inp rest IH]; intros s H Hr Hq Hu Hlen; [reflexivity|].
  inversion Hr as [|? ? Hi Hrest]; subst.
  rewrite length_cons, Nat2Z.inj_succ in Hlen.
  rewrite main_loop_step by assumption. cbn [events_of snd].
  unfold setpoints_in. cbn [omap list_omap]. rewrite omap_app.
  fold (setpoints_in (events_of (loop_body inp s))).
  fold (setpoints_in (events_of (main_loop rest (state_of (loop_body inp s))))).
  pose proof (loop_body_ok inp s H) as [_ Hwf].
  pose proof (loop_body_update inp s H) as Eu.
  pose proof (loop_body_sequence inp s H) as Eq.
  unfold next_update in Eu. unfold next_sequence in Eq.
  rewrite UPDATES_PER_MOVE_value in Eu, Eq.
  destruct (update s + 1 >=? 200) eqn:E; [apply Z.geb_le in E; lia|].
  rewrite Hq in Eq.
  rewrite IH by (try assumption; lia).
  destruct table_values as (T0 & _). rewrite <- Eq in T0.
  rewrite (loop_body_setpoint_events _ _ _ _ _ _ H T0).
  reflexivity.
Qed.

Lemma take_released n ins : Forall released ins -> Forall released (take n ins).
Proof. apply Forall_take. Qed.

(** Counters after the first [n] iterations of a run that starts with both
    counters at zero. *)
Lemma counters_from_zero ins s (n : nat) :
  wf s -> Forall released ins -> update s = 0 -> sequence s = 0 ->
  (n <= length ins)%nat ->
  update (state_of (main_loop (take n ins) s)) = Z.of_nat n mod 200 /\
  sequence (state_of (main_loop (take n ins) s)) = (Z.of_nat n / 200) mod 7.
Proof.
  intros H Hr Hu Hq Hn.
  destruct (main_loop_counters (take n ins) s H (take_released n ins Hr))
    as [Eu Eq]; [lia | lia |].
  rewrite length_take_le, Hu, Hq, !Z.add_0_l in * by assumption.
  split; assumption.
Qed.

(** C4.  With a dwell of 200 ticks per state: from state index 0 and
    progress 0, after [n] ticks the state index is [(n / 200) mod 7] and the
    progress is [n mod 200], so the seven indices 0..6 are visited in order,
    200 ticks each; after 1399 ticks the index is 6, and the 1400th tick
    brings index and progress back to 0. *)
Theorem sequence_cycles (ins : list Input) (s : State) :
  wf s -> Forall released ins ->
  update s = 0 -> sequence s = 0 -> length ins = 1400%nat ->
  UPDATES_PER_MOVE = 200 /\
  (forall n : nat, (n <= 1400)%nat ->
     sequence (state_of (main_loop (take n ins) s)) = (Z.of_nat n / 200) mod 7 /\
     update (state_of (main_loop (take n ins) s)) = Z.of_nat n mod 200) /\
  sequence (state_of (main_loop (take 1399 ins) s)) = 6 /\
  sequence (state_of (main_loop ins s)) = 0 /\
  update (state_of (main_loop ins s)) = 0.
Proof.
  intros H Hr Hu Hq Hlen.
  split; [reflexivity|].
  split.
  { intros n Hn.
    destruct (counters_from_zero ins s n H Hr Hu Hq) as [Eu Eq]; [lia|].
    split; assumption. }
  split.
  { destruct (counters_from_zero ins s 1399 H Hr Hu Hq) as [_ Eq]; [lia|].
    rewrite Eq. vm_compute. reflexivity. }
  destruct (counters_from_zero ins s 1400 H Hr Hu Hq) as [Eu Eq]; [lia|].
  rewrite take_ge in Eu, Eq by lia.
  rewrite Eu, Eq. split; vm_compute; reflexivity.
Qed.

Lemma sequence_cycles_witness :
  (wf start /\ Forall released (replicate 1400 idle) /\
   update start = 0 /\ sequence start = 0 /\
   length (replicate 1400 idle) = 1400%nat) /\
  sequence (state_of (main_loop (take 1399 (replicate 1400 idle)) start)) = 6 /\
  sequence (state_of (main_loop (replicate 1400 idle) start)) = 0 /\
  update (state_of (main_loop (replicate 1400 idle) start)) = 0.
Proof.
  assert (W : wf start) by (repeat split; reflexivity).
  assert (R : Forall released (replicate 1400 idle))
    by (apply Forall_replicate; reflexivity).
  assert (L : length (replicate 1400 idle) = 1400%nat)
    by (vm_compute; reflexivity).
  split; [repeat (split; [first [exact W | exact R | reflexivity]|]); exact L|].
  exact (proj2 (proj2 (sequence_cycles (replicate 1400 idle) start
                         W R eq_refl eq_refl L))).
Defined.

(** C6.  With 200 ticks per state (100 updates per second, 2 seconds per
    move) and magnitude 0.9, from a fresh start with any four controllers
    (whatever their gains): after each of the ticks 1..199 the sequencer is
    in Forward and the four setpoints are +0.9; after the 200th tick it is in
    Reverse and the four setpoints are -0.9; over the whole run the setpoint
    assignments are 199 Forward rows followed by one Reverse row. *)
Theorem forward_to_reverse_at_tick_200
    (pids : list PID) (ms : list Motor) (ins : list Input) :
  length pids = 4%nat -> length ms = 4%nat ->
  Forall released ins -> length ins = 200%nat ->
  UPDATES = 100 /\ TIME_FOR_EACH_MOVE = 2 /\ UPDATES_PER_MOVE = 200 /\
  sequence (fresh pids ms) = 0 /\
  (forall n : nat, (1 <= n < 200)%nat ->
     sequence (state_of (main_loop (take n ins) (fresh pids ms))) = 0 /\
     setpoint <$> vel_pids (state_of (main_loop (take n ins) (fresh pids ms))) =
       [lit 9 10; lit 9 10; lit 9 10; lit 9 10]) /\
  sequence (state_of (main_loop ins (fresh pids ms))) = 1 /\
  setpoint <$> vel_pids (state_of (main_loop ins (fresh pids ms))) =
    [lit (-9) 10; lit (-9) 10; lit (-9) 10; lit (-9) 10] /\
  setpoints_in (events_of (main_loop ins (fresh pids ms))) =
    concat (replicate 199
              [(FL, lit 9 10); (FR, lit 9 10); (RL, lit 9 10); (RR, lit 9 10)]) ++
    [(FL, lit (-9) 10); (FR, lit (-9) 10); (RL, lit (-9) 10); (RR, lit (-9) 10)].
Proof.
  intros Hp Hm Hr Hlen.
  pose proof (fresh_wf pids ms Hp Hm) as H.
  destruct table_values as (T0 & T1 & _).
  repeat (split; [reflexivity|]).
  split.
  { intros n Hn.
    destruct (counters_from_zero ins (fresh pids ms) n H Hr eq_refl eq_refl)
      as [_ Eq]; [lia|].
    rewrite Z.div_small, Z.mod_0_l in Eq by lia.
    split; [exact Eq|].
    apply setpoints_after; [exact H | apply take_released, Hr | | rewrite Eq; exact T0].
    intros E. apply (f_equal length) in E.
    rewrite length_take_le in E by lia. cbn in E. lia. }
  destruct (counters_from_zero ins (fresh pids ms) 200 H Hr eq_refl eq_refl)
    as [_ Eq]; [lia|].
  rewrite take_ge in Eq by lia.
  change ((Z.of_nat 200 / 200) mod 7) with 1 in Eq.
  split; [exact Eq|].
  split.
  { apply setpoints_after; [exact H | exact Hr | | rewrite Eq; exact T1].
    intros E. rewrite E in Hlen. discriminate. }
  assert (Hx : is_Some (ins !! 199%nat)) by (apply lookup_lt_is_Some_2; lia).
  destruct Hx as [x Hx].
  assert (Hsplit : ins = take 199 ins ++ [x]).
  { rewrite <- (take_S_r _ _ _ Hx). symmetry. apply take_ge. lia. }
  assert (Hrx : released x).
  { rewrite Forall_forall in Hr. apply Hr.
    eapply list_elem_of_lookup_2. exact Hx. }
  pose proof (take_released 199 ins Hr) as Hr199.
  destruct (main_loop_snoc (take 199 ins) x (fresh pids ms) H Hr199 Hrx) as [Es Ee].
  rewrite <- Hsplit in Es, Ee.
  rewrite Ee. unfold setpoints_in at 1. rewrite omap_app. cbn [omap list_omap].
  fold (setpoints_in (events_of (main_loop (take 199 ins) (fresh pids ms)))).
  fold (setpoints_in (events_of (loop_body x (state_of (main_loop (take 199 ins) (fresh pids ms)))))).
  rewrite forward_dwell; try assumption; try reflexivity.
  - rewrite length_take_le by lia.
    rewrite <- Eq, Es in T1.
    pose proof (main_loop_ok _ _ H Hr199) as [_ Hwf].
    rewrite (loop_body_setpoint_events _ _ _ _ _ _ Hwf T1). reflexivity.
  - rewrite length_take_le by lia. cbn. lia.
Qed.

Lemma forward_to_reverse_at_tick_200_witness :
  (length (vel_pids start) = 4%nat /\ length (motors start) = 4%nat /\
   Forall released (replicate 200 idle) /\
   length (replicate 200 idle) = 200%nat) /\
  sequence (state_of (main_loop (take 199 (replicate 200 idle)) start)) = 0 /\
  setpoint <$> vel_pids (state_of (main_loop (take 199 (replicate 200 idle)) start)) =
    [lit 9 10; lit 9 10; lit 9 10; lit 9 10] /\
  sequence (state_of (main_loop (replicate 200 idle) start)) = 1 /\
  setpoint <$> vel_pids (state_of (main_loop (replicate 200 idle) start)) =
    [lit (-9) 10; lit (-9) 10; lit (-9) 10; lit (-9) 10].
Proof.
  assert (R : Forall released (replicate 200 idle))
    by (apply Forall_replicate; reflexivity).
  assert (L : length (replicate 200 idle) = 200%nat) by (vm_compute; reflexivity).
  split; [repeat (split; [first [exact R | reflexivity]|]); exact L|].
  destruct (forward_to_reverse_at_tick_200
              (vel_pids start) (motors start) (replicate 200 idle)
              eq_refl eq_refl R L)
    as (_ & _ & _ & _ & Hn & Hq & Hs & _).
  destruct (Hn 199%nat) as [Hn1 Hn2]; [lia|].
  repeat split; assumption.
Defined.

(** C9.  From a fresh start, at the start of every loop iteration the
    progress counter lies in 0..199 and the sequence index in 0..6.  Within
    one iteration: below 199 the progress counter goes up by one and the
    index stays; at 199 the progress counter is reset to 0 (instead of
    reaching 200) and the index goes up by one, except at 6, where it is
    reset to 0 (instead of reaching 7). *)
Theorem counters_in_range
    (pids : list PID) (ms : list Motor) (ins : list Input) (inp : Input) :
  length pids = 4%nat -> length ms = 4%nat -> Forall released ins ->
  0 <= update (state_of (main_loop ins (fresh pids ms))) <= 199 /\
  0 <= sequence (state_of (main_loop ins (fresh pids ms))) <= 6 /\
  (update (state_of (main_loop ins (fresh pids ms))) < 199 ->
   update (state_of (loop_body inp (state_of (main_loop ins (fresh pids ms))))) =
     update (state_of (main_loop ins (fresh pids ms))) + 1 /\
   sequence (state_of (loop_body inp (state_of (main_loop ins (fresh pids ms))))) =
     sequence (state_of (main_loop ins (fresh pids ms)))) /\
  (update (state_of (main_loop ins (fresh pids ms))) = 199 ->
   update (state_of (loop_body inp (state_of (main_loop ins (fresh pids ms))))) = 0) /\
  (update (state_of (main_loop ins (fresh pids ms))) = 199 ->
   sequence (state_of (main_loop ins (fresh pids ms))) < 6 ->
   sequence (state_of (loop_body inp (state_of (main_loop ins (fresh pids ms))))) =
     sequence (state_of (main_loop ins (fresh pids ms))) + 1) /\
  (update (state_of (main_loop ins (fresh pids ms))) = 199 ->
   sequence (state_of (main_loop ins (fresh pids ms))) = 6 ->
   sequence (state_of (loop_body inp (state_of (main_loop ins (fresh pids ms))))) = 0).
Proof.
  intros Hp Hm Hr.
  pose proof (fresh_wf pids ms Hp Hm) as H.
  pose proof (main_loop_ok ins _ H Hr) as [_ Hwf].
  destruct (main_loop_counters ins (fresh pids ms) H Hr) as [Eu Eq];
    [cbn; lia | cbn; lia |].
  pose proof (loop_body_update inp _ Hwf) as Su.
  pose proof (loop_body_sequence inp _ Hwf) as Sq.
  revert Eu Eq Su Sq.
  generalize (state_of (loop_body inp (state_of (main_loop ins (fresh pids ms))))).
  generalize (state_of (main_loop ins (fresh pids ms))).
  intros s s' Eu Eq Su Sq.
  assert (Bu : 0 <= update s <= 199).
  { rewrite Eu.
    pose proof (Z.mod_pos_bound (update (fresh pids ms) + Z.of_nat (length ins)) 200).
    lia. }
  assert (Bq : 0 <= sequence s <= 6).
  { rewrite Eq.
    pose proof (Z.mod_pos_bound
      (sequence (fresh pids ms) +
       (update (fresh pids ms) + Z.of_nat (length ins)) / 200) 7).
    lia. }
  clear Eu Eq.
  unfold next_update in Su. unfold next_sequence in Sq.
  rewrite UPDATES_PER_MOVE_value in Su, Sq.
  split; [exact Bu|]. split; [exact Bq|].
  destruct (update s + 1 >=? 200) eqn:E.
  - apply Z.geb_le in E.
    destruct (sequence s + 1 >=? 7) eqn:F.
    + apply Z.geb_le in F. repeat split; intros; lia.
    + rewrite Z.geb_leb in F. apply Z.leb_gt in F. repeat split; intros; lia.
  - rewrite Z.geb_leb in E. apply Z.leb_gt in E. repeat split; intros; lia.
Qed.

Lemma counters_in_range_witness :
  (length (vel_pids start) = 4%nat /\ length (motors start) = 4%nat /\
   Forall released (replicate 1399 idle)) /\
  update (state_of (main_loop (replicate 1399 idle) start)) = 199 /\
  sequence (state_of (main_loop (replicate 1399 idle) start)) = 6 /\
  update (state_of (loop_body idle (state_of (main_loop (replicate 1399 idle) start)))) = 0 /\
  sequence (state_of (loop_body idle (state_of (main_loop (replicate 1399 idle) start)))) = 0.
Proof.
  assert (R : Forall released (replicate 1399 idle))
    by (apply Forall_replicate; reflexivity).
  assert (U : update (state_of (main_loop (replicate 1399 idle) start)) = 199)
    by (vm_compute; reflexivity).
  assert (Q : sequence (state_of (main_loop (replicate 1399 idle) start)) = 6)
    by (vm_compute; reflexivity).
  split; [split; [reflexivity | split; [reflexivity | exact R]]|].
  destruct (counters_in_range (vel_pids start) (motors start)
              (replicate 1399 idle) idle eq_refl eq_refl R)
    as (_ & _ & _ & Hu & _ & Hq).
  split; [exact U|]. split; [exact Q|].
  split; [exact (Hu U) | exact (Hq U Q)].
Defined.

(** * Further properties of the script *)

(** ** Readers over a run *)

Lemma concat_replicate_singleton {A} (n : nat) (x : A) :
  concat (replicate n [x]) = replicate n x.
Proof. induction n as [|n IH]; [reflexivity|]. cbn. rewrite IH. reflexivity. Qed.

(** A reader that finds the same entries in the log of every loop body finds
    them once per iteration in the log of a run. *)
Lemma main_loop_omap_const {A} (f : Event -> option A) (c : list A) :
  (forall inp s, wf s -> omap f (events_of (loop_body inp s)) = c) ->
  forall ins s, wf s -> Forall released ins ->
  omap f (events_of (main_loop ins s)) =
    concat (replicate (length ins) (omap f [EvButton false] ++ c)).
Proof.
  intros Hc. induction ins as [|inp rest IH]; intros s H Hr; [reflexivity|].
  inversion Hr as [|? ? Hi Hrest]; subst.
  rewrite main_loop_step by assumption. cbn [events_of snd].
  change (EvButton false :: events_of (loop_body inp s) ++
          events_of (main_loop rest (state_of (loop_body inp s))))
    with ([EvButton false] ++ events_of (loop_body inp s) ++
          events_of (main_loop rest (state_of (loop_body inp s)))).
  rewrite !omap_app, Hc by assumption.
  rewrite IH by (try apply loop_body_ok; assumption).
  cbn [length replicate concat]. rewrite <- List.app_assoc. reflexivity.
Qed.

(** What the loop body leaves alone, and what it always does. *)
Lemma loop_body_quiet inp s :
  wf s ->
  buttons_in (events_of (loop_body inp s)) = [] /\
  disables_in (events_of (loop_body inp s)) = [] /\
  sleeps_in (events_of (loop_body inp s)) = [UPDATE_RATE] /\
  m_enabled <$> motors (state_of (loop_body inp s)) = m_enabled <$> motors s.
Proof.
  intros H. expose s H. rewrite loop_body_run.
  tick_cases pc; repeat split; reflexivity.
Qed.




(** X2.  While the button stays released the script disables no motor: the
    log has no [disable] call and every motor keeps the enabled flag it
    started with. *)
Theorem loop_keeps_motors_enabled (ins : list Input) (s : State) :
  wf s -> Forall released ins ->
  disables_in (events_of (program ins s)) = [] /\
  m_enabled <$> motors (state_of (program ins s)) = m_enabled <$> motors s.
Proof.
  intros H Hr.
  assert (Hd : disables_in (events_of (main_loop ins s)) = []).
  { unfold disables_in. rewrite (main_loop_omap_const _ []); try assumption.
    - cbn. clear. induction (length ins) as [|n IH]; [reflexivity|exact IH].
    - intros inp s' H'. apply (loop_body_quiet inp s' H'). }
  assert (Hm : forall ins s, wf s -> Forall released ins ->
             m_enabled <$> motors (state_of (main_loop ins s)) = m_enabled <$> motors s).
  { clear. induction ins as [|inp rest IH]; intros s H Hr; [reflexivity|].
    inversion Hr as [|? ? Hi Hrest]; subst.
    rewrite main_loop_step by assumption.
    change (state_of (?a, ?b, ?c)) with b.
    rewrite IH by (try apply loop_body_ok; assumption).
    apply (loop_body_quiet inp s H). }
  specialize (Hm ins s H Hr).
  destruct (main_loop_ok ins s H Hr) as [Er _].
  unfold program, bind.
  destruct (main_loop ins s) as [[r sp] e].
  cbn [result_of state_of events_of fst snd] in *. subst r.
  cbn. rewrite !app_nil_r. split; assumption.
Qed.

Lemma loop_keeps_motors_enabled_witness :
  (wf start /\ Forall released (replicate 300 idle)) /\
  disables_in (events_of (program (replicate 300 idle) start)) = [] /\
  m_enabled <$> motors (state_of (program (replicate 300 idle) start)) =
    [true; true; true; true].
Proof.
  assert (W : wf start) by (repeat split; reflexivity).
  assert (R : Forall released (replicate 300 idle))
    by (apply Forall_replicate; reflexivity).
  split; [split; [exact W | exact R]|].
  exact (loop_keeps_motors_enabled (replicate 300 idle) start W R).
Defined.

(** ** The program on released runs and on a halt *)

Lemma program_released ins s :
  wf s -> Forall released ins ->
  program ins s =
    (Ok false, state_of (main_loop ins s), events_of (main_loop ins s)).
Proof.
  intros H Hr. destruct (main_loop_ok ins s H Hr) as [Er _].
  unfold program, bind.
  destruct (main_loop ins s) as [[r sp] e].
  cbn [result_of state_of events_of fst snd] in *. subst r.
  cbn. rewrite !app_nil_r. reflexivity.
Qed.

Lemma program_halted pre inp rest s :
  wf s -> Forall released pre -> pressed inp = true ->
  events_of (program (pre ++ inp :: rest) s) =
    events_of (main_loop pre s) ++
    [EvButton true; EvDisable 0; EvDisable 1; EvDisable 2; EvDisable 3].
Proof.
  intros H Hr Hp.
  pose proof (main_loop_ok pre s H Hr) as [_ Hwf].
  unfold program. unfold bind at 1.
  rewrite main_loop_app by assumption.
  rewrite (main_loop_pressed inp rest _ Hp).
  cbn [result_of state_of events_of fst snd].
  generalize (main_loop pre s).2. intros e.
  revert Hwf. generalize (state_of (main_loop pre s)). intros sp Hwf.
  expose sp Hwf.
  unfold bind. rewrite disable_all_run. cbn [ret]. rewrite app_nil_r.
  rewrite <- List.app_assoc. reflexivity.
Qed.

Lemma buttons_released ins s :
  wf s -> Forall released ins ->
  buttons_in (events_of (main_loop ins s)) = replicate (length ins) false.
Proof.
  intros H Hr. unfold buttons_in.
  rewrite (main_loop_omap_const _ []); try assumption.
  - cbn [omap list_omap app]. apply concat_replicate_singleton.
  - intros inp s' H'. apply (loop_body_quiet inp s' H').
Qed.

(** X3.  The button is read once per evaluation of the loop condition and
    nowhere else: a run of [n] iterations with the button released has
    exactly [n] reads, all released; when the next read is pressed the log
    has one more read, the pressed one, and none after it. *)
Theorem button_polled_once_per_iteration
    (pre : list Input) (inp : Input) (rest : list Input) (s : State) :
  wf s -> Forall released pre -> pressed inp = true ->
  buttons_in (events_of (program pre s)) = replicate (length pre) false /\
  buttons_in (events_of (program (pre ++ inp :: rest) s)) =
    replicate (length pre) false ++ [true].
Proof.
  intros H Hr Hp. split.
  - rewrite program_released by assumption. apply buttons_released; assumption.
  - rewrite program_halted by assumption.
    unfold buttons_in. rewrite omap_app.
    fold (buttons_in (events_of (main_loop pre s))).
    rewrite buttons_released by assumption. reflexivity.
Qed.

Lemma button_polled_once_per_iteration_witness :
  (wf start /\ Forall released (replicate 5 idle) /\ pressed halt = true) /\
  buttons_in (events_of (program (replicate 5 idle ++ halt :: [idle; idle]) start)) =
    [false; false; false; false; false; true].
Proof.
  assert (W : wf start) by (repeat split; reflexivity).
  assert (R : Forall released (replicate 5 idle))
    by (apply Forall_replicate; reflexivity).
  split; [split; [exact W | split; [exact R | reflexivity]]|].
  exact (proj2 (button_polled_once_per_iteration
                  (replicate 5 idle) halt [idle; idle] start W R eq_refl)).
Defined.

(** ** Sleep time *)

Local Transparent Qcplus Qcmult lit of_int UPDATE_RATE Z.add.

Lemma of_int_succ (z : Z) : of_int (Z.succ z) = (of_int z + lit 1 1)%Qc.
Proof.
  apply Qc_is_canon. unfold of_int, lit. cbn [Qcplus this Q2Qc].
  rewrite !Qred_correct. unfold Z.succ. rewrite inject_Z_plus. reflexivity.
Qed.

Lemma total_replicate (n : nat) (r : Qc) :
  total (replicate n r) = (of_int (Z.of_nat n) * r)%Qc.
Proof.
  induction n as [|n IH].
  - cbn [replicate total foldr]. change (Z.of_nat 0) with 0.
    change (of_int 0) with 0%Qc. change (lit 0 1) with 0%Qc. ring.
  - rewrite Nat2Z.inj_succ, of_int_succ.
    cbn [replicate total foldr]. fold (total (replicate n r)). rewrite IH.
    change (lit 1 1) with 1%Qc. ring.
Qed.

Lemma move_duration :
  (of_int UPDATES_PER_MOVE * UPDATE_RATE)%Qc = of_int TIME_FOR_EACH_MOVE.
Proof. apply Qc_is_canon. vm_compute. reflexivity. Qed.

Local Opaque Qcplus Qcmult lit of_int UPDATE_RATE Z.add.

(** X4.  Every iteration ends its work with one [time.sleep(UPDATE_RATE)],
    and the script sleeps nowhere else: a run of [n] iterations asks for [n]
    sleeps of [UPDATE_RATE] each, [n * UPDATE_RATE] seconds in all, which
    for the [UPDATES_PER_MOVE] iterations of one move is
    [TIME_FOR_EACH_MOVE] seconds. *)
Theorem sleeps_once_per_iteration (ins : list Input) (s : State) :
  wf s -> Forall released ins ->
  sleeps_in (events_of (program ins s)) = replicate (length ins) UPDATE_RATE /\
  total (sleeps_in (events_of (program ins s))) =
    (of_int (Z.of_nat (length ins)) * UPDATE_RATE)%Qc /\
  (of_int UPDATES_PER_MOVE * UPDATE_RATE)%Qc = of_int TIME_FOR_EACH_MOVE.
Proof.
  intros H Hr.
  assert (E : sleeps_in (events_of (program ins s)) =
              replicate (length ins) UPDATE_RATE).
  { rewrite program_released by assumption. cbn [events_of snd].
    unfold sleeps_in.
    rewrite (main_loop_omap_const _ [UPDATE_RATE]); try assumption.
    - cbn [omap list_omap app]. apply concat_replicate_singleton.
    - intros inp s' H'. apply (loop_body_quiet inp s' H'). }
  split; [exact E|]. split; [|exact move_duration].
  rewrite E. apply total_replicate.
Qed.

Lemma sleeps_once_per_iteration_witness :
  (wf start /\ Forall released (replicate 200 idle)) /\
  total (sleeps_in (events_of (program (replicate 200 idle) start))) =
    (of_int (Z.of_nat (length (replicate 200 idle))) * UPDATE_RATE)%Qc.
Proof.
  assert (W : wf start) by (repeat split; reflexivity).
  assert (R : Forall released (replicate 200 idle))
    by (apply Forall_replicate; reflexivity).
  split; [split; [exact W | exact R]|].
  exact (proj1 (proj2 (sleeps_once_per_iteration (replicate 200 idle) start W R))).
Defined.

(** X5.  Inside one tick the four wheels are served one after the other in
    list order (RR, RL, FL, FR): for each wheel the PID call, the read of the
    held speed and the speed command come in this order, and all three are
    done before the PID call of the next wheel. *)
Theorem wheels_served_in_turn (inp : Input) (s : State) :
  wf s ->
  velocity_ops_in (events_of (loop_body inp s)) =
    [(OpCalculate, RR); (OpSpeedGet, RR); (OpSpeedSet, RR);
     (OpCalculate, RL); (OpSpeedGet, RL); (OpSpeedSet, RL);
     (OpCalculate, FL); (OpSpeedGet, FL); (OpSpeedSet, FL);
     (OpCalculate, FR); (OpSpeedGet, FR); (OpSpeedSet, FR)].
Proof.
  intros H. expose s H. rewrite loop_body_run. tick_cases pc; reflexivity.
Qed.

Lemma wheels_served_in_turn_witness :
  wf start /\
  velocity_ops_in (events_of (loop_body idle start)) =
    [(OpCalculate, RR); (OpSpeedGet, RR); (OpSpeedSet, RR);
     (OpCalculate, RL); (OpSpeedGet, RL); (OpSpeedSet, RL);
     (OpCalculate, FL); (OpSpeedGet, FL); (OpSpeedSet, FL);
     (OpCalculate, FR); (OpSpeedGet, FR); (OpSpeedSet, FR)].
Proof.
  split; [repeat split; reflexivity|].
  apply (wheels_served_in_turn idle start). repeat split; reflexivity.
Defined.

(** ** The diagnostic print *)

Lemma loop_body_print inp s :
  wf s ->
  print_count (state_of (loop_body inp s)) = (print_count s + 1) mod PRINT_DIVIDER /\
  prints_in (events_of (loop_body inp s)) =
    (if print_count s =? 0
     then [("RR"%string, readings inp 0); ("RL"%string, readings inp 1);
           ("FL"%string, readings inp 2); ("FR"%string, readings inp 3)]
     else []) /\
  newlines_in (events_of (loop_body inp s)) =
    (if print_count s =? 0 then [tt] else []).
Proof.
  intros H. expose s H. rewrite loop_body_run.
  split; [reflexivity|]. cbn [print_count].
  tick_cases pc; split; reflexivity.
Qed.

Lemma main_loop_print_count ins : forall s,
  wf s -> Forall released ins -> 0 <= print_count s < 4 ->
  print_count (state_of (main_loop ins s)) =
    (print_count s + Z.of_nat (length ins)) mod 4.
Proof.
  induction ins as [|inp rest IH]; intros s H Hr Hpc.
  - cbn [main_loop ret state_of fst snd length].
    change (Z.of_nat 0) with 0. rewrite Z.add_0_r, Z.mod_small by lia. reflexivity.
  - inversion Hr as [|? ? Hi Hrest]; subst.
    rewrite main_loop_step by assumption.
    change (state_of (?a, ?b, ?c)) with b.
    destruct (loop_body_print inp s H) as (Ep & _).
    change PRINT_DIVIDER with 4 in Ep.
    rewrite IH; [| apply loop_body_ok, H | assumption
                 | rewrite Ep; apply Z.mod_pos_bound; lia].
    rewrite Ep, length_cons, Nat2Z.inj_succ, Zplus_mod_idemp_l.
    f_equal. lia.
Qed.

(** X6.  From a fresh start the diagnostic line is printed on the first
    iteration and then on every fourth one ([PRINT_DIVIDER] = 4): the
    iteration that follows [n] completed ones prints exactly when [n] is a
    multiple of 4.  A printing iteration prints the four velocities captured
    on that iteration, labelled RR, RL, FL, FR in this order, and ends the
    line once; the other iterations print nothing. *)
Theorem prints_every_fourth_tick
    (pids : list PID) (ms : list Motor) (ins : list Input) (inp : Input) :
  length pids = 4%nat -> length ms = 4%nat -> Forall released ins ->
  prints_in (events_of (loop_body inp (state_of (main_loop ins (fresh pids ms))))) =
    (if Z.of_nat (length ins) mod 4 =? 0
     then [("RR"%string, readings inp 0); ("RL"%string, readings inp 1);
           ("FL"%string, readings inp 2); ("FR"%string, readings inp 3)]
     else []) /\
  newlines_in (events_of (loop_body inp (state_of (main_loop ins (fresh pids ms))))) =
    (if Z.of_nat (length ins) mod 4 =? 0 then [tt] else []).
Proof.
  intros Hp Hm Hr.
  pose proof (fresh_wf pids ms Hp Hm) as H.
  pose proof (main_loop_ok ins _ H Hr) as [_ Hwf].
  pose proof (main_loop_print_count ins _ H Hr) as Epc.
  cbn [fresh print_count] in Epc. rewrite Z.add_0_l in Epc.
  destruct (loop_body_print inp _ Hwf) as (_ & E1 & E2).
  rewrite E1, E2, Epc by lia. split; reflexivity.
Qed.

Lemma prints_every_fourth_tick_witness :
  (length (vel_pids start) = 4%nat /\ length (motors start) = 4%nat /\
   Forall released (replicate 8 idle) /\ Forall released (replicate 9 idle)) /\
  prints_in (events_of (loop_body idle (state_of (main_loop (replicate 8 idle) start)))) =
    [("RR"%string, lit 0 1); ("RL"%string, lit 0 1);
     ("FL"%string, lit 0 1); ("FR"%string, lit 0 1)] /\
  prints_in (events_of (loop_body idle (state_of (main_loop (replicate 9 idle) start)))) = [].
Proof.
  assert (R8 : Forall released (replicate 8 idle))
    by (apply Forall_replicate; reflexivity).
  assert (R9 : Forall released (replicate 9 idle))
    by (apply Forall_replicate; reflexivity).
  split; [split; [reflexivity | split; [reflexivity | split; [exact R8 | exact R9]]]|].
  split.
  - exact (proj1 (prints_every_fourth_tick (vel_pids start) (motors start)
                    (replicate 8 idle) idle eq_refl eq_refl R8)).
  - exact (proj1 (prints_every_fourth_tick (vel_pids start) (motors start)
                    (replicate 9 idle) idle eq_refl eq_refl R9)).
Defined.

(** ** The rest of the setpoint table *)

(** X7.  The rows of the dispatch that the sequence reaches besides
    TurnRight, TurnLeft and Stop.  A tick that leaves sequence 0 (Forward)
    writes +0.9 to all four wheels; sequence 1 (Reverse) writes -0.9 to all
    four; sequence 4 (StrafeRight) writes FL = +0.9, FR = -0.9, RL = -0.9,
    RR = +0.9; sequence 5 (StrafeLeft, [strafe_right(-0.9)]) writes
    FL = -0.9, FR = +0.9, RL = +0.9, RR = -0.9. *)
Theorem drive_and_strafe_rows (inp : Input) (s : State) :
  wf s ->
  (sequence (state_of (loop_body inp s)) = 0 ->
   setpoints_in (events_of (loop_body inp s)) =
     [(FL, lit 9 10); (FR, lit 9 10); (RL, lit 9 10); (RR, lit 9 10)]) /\
  (sequence (state_of (loop_body inp s)) = 1 ->
   setpoints_in (events_of (loop_body inp s)) =
     [(FL, lit (-9) 10); (FR, lit (-9) 10); (RL, lit (-9) 10); (RR, lit (-9) 10)]) /\
  (sequence (state_of (loop_body inp s)) = 4 ->
   setpoints_in (events_of (loop_body inp s)) =
     [(FL, lit 9 10); (FR, lit (-9) 10); (RL, lit (-9) 10); (RR, lit 9 10)]) /\
  (sequence (state_of (loop_body inp s)) = 5 ->
   setpoints_in (events_of (loop_body inp s)) =
     [(FL, lit (-9) 10); (FR, lit 9 10); (RL, lit 9 10); (RR, lit (-9) 10)]).
Proof.
  intros H.
  destruct table_values as (T0 & T1 & _ & _ & T4 & T5 & _).
  repeat split; intros Hq.
  - rewrite <- Hq in T0. apply (loop_body_setpoint_events _ _ _ _ _ _ H T0).
  - rewrite <- Hq in T1. apply (loop_body_setpoint_events _ _ _ _ _ _ H T1).
  - rewrite <- Hq in T4. apply (loop_body_setpoint_events _ _ _ _ _ _ H T4).
  - rewrite <- Hq in T5. apply (loop_body_setpoint_events _ _ _ _ _ _ H T5).
Qed.

Lemma drive_and_strafe_rows_witness :
  wf (state_of (main_loop (replicate 799 idle) start)) /\
  sequence (state_of (loop_body idle (state_of (main_loop (replicate 799 idle) start)))) = 4 /\
  setpoints_in (events_of (loop_body idle (state_of (main_loop (replicate 799 idle) start)))) =
    [(FL, lit 9 10); (FR, lit (-9) 10); (RL, lit (-9) 10); (RR, lit 9 10)] /\
  wf (state_of (main_loop (replicate 999 idle) start)) /\
  sequence (state_of (loop_body idle (state_of (main_loop (replicate 999 idle) start)))) = 5 /\
  setpoints_in (events_of (loop_body idle (state_of (main_loop (replicate 999 idle) start)))) =
    [(FL, lit (-9) 10); (FR, lit 9 10); (RL, lit 9 10); (RR, lit (-9) 10)].
Proof.
  assert (W4 : wf (state_of (main_loop (replicate 799 idle) start)))
    by (repeat split; vm_compute; reflexivity).
  assert (Q4 : sequence (state_of (loop_body idle
                 (state_of (main_loop (replicate 799 idle) start)))) = 4)
    by (vm_compute; reflexivity).
  assert (W5 : wf (state_of (main_loop (replicate 999 idle) start)))
    by (repeat split; vm_compute; reflexivity).
  assert (Q5 : sequence (state_of (loop_body idle
                 (state_of (main_loop (replicate 999 idle) start)))) = 5)
    by (vm_compute; reflexivity).
  split; [exact W4|]. split; [exact Q4|].
  split; [exact (proj1 (proj2 (proj2 (drive_and_strafe_rows idle _ W4))) Q4)|].
  split; [exact W5|]. split; [exact Q5|].
  exact (proj2 (proj2 (proj2 (drive_and_strafe_rows idle _ W5))) Q5).
Defined.

(** ** The helper functions *)

(** X8.  Each of the four helpers, called with four controllers present,
    returns normally and changes nothing but setpoints: counters, motors,
    captures, gains, sample period, integral accumulator and previous error
    of every controller stay as they were.  In list order RR, RL, FL, FR the
    setpoints become: [drive_forward(v)]: v, v, v, v; [turn_right(v)]:
    -v, v, v, -v (left wheels v, right wheels -v); [strafe_right(v)]:
    v, -v, v, -v (FL and RR v, FR and RL -v); [stop()]: 0, 0, 0, 0. *)
Theorem helpers_write_setpoints_only (v : Qc) (s : State) :
  wf s ->
  (result_of (drive_forward v s) = Ok tt /\
   same_but_setpoints s (state_of (drive_forward v s)) /\
   setpoint <$> vel_pids (state_of (drive_forward v s)) = [v; v; v; v]) /\
  (result_of (turn_right v s) = Ok tt /\
   same_but_setpoints s (state_of (turn_right v s)) /\
   setpoint <$> vel_pids (state_of (turn_right v s)) = [- v; v; v; - v]%Qc) /\
  (result_of (strafe_right v s) = Ok tt /\
   same_but_setpoints s (state_of (strafe_right v s)) /\
   setpoint <$> vel_pids (state_of (strafe_right v s)) = [v; - v; v; - v]%Qc) /\
  (result_of (stop s) = Ok tt /\
   same_but_setpoints s (state_of (stop s)) /\
   setpoint <$> vel_pids (state_of (stop s)) =
     [of_int 0; of_int 0; of_int 0; of_int 0]).
Proof.
  intros H. expose s H.
  repeat split; reflexivity.
Qed.

Lemma helpers_write_setpoints_only_witness :
  wf start /\
  setpoint <$> vel_pids (state_of (turn_right (lit 9 10) start)) =
    [- lit 9 10; lit 9 10; lit 9 10; - lit 9 10]%Qc /\
  error_sum <$> vel_pids (state_of (turn_right (lit 9 10) start)) =
    error_sum <$> vel_pids start.
Proof.
  assert (W : wf start) by (repeat split; reflexivity).
  split; [exact W|].
  destruct (helpers_write_setpoints_only (lit 9 10) start W)
    as (_ & (_ & _ & Ht) & _).
  split; [exact Ht | reflexivity].
Defined.

(** X9.  For every speed, turning and strafing command no net velocity: the
    four setpoints written by [turn_right] add up to zero, and so do those
    written by [strafe_right].  Calling a helper with the negated speed
    negates the setpoint of every wheel, so Reverse is the mirror of Forward
    and StrafeLeft the mirror of StrafeRight. *)
Theorem helpers_balance_and_mirror (v : Qc) (s : State) :
  wf s ->
  total (snd <$> setpoints_in (events_of (turn_right v s))) = lit 0 1 /\
  total (snd <$> setpoints_in (events_of (strafe_right v s))) = lit 0 1 /\
  setpoints_in (events_of (drive_forward (- v) s)) =
    (fun a => (a.1, (- a.2)%Qc)) <$> setpoints_in (events_of (drive_forward v s)) /\
  setpoints_in (events_of (turn_right (- v) s)) =
    (fun a => (a.1, (- a.2)%Qc)) <$> setpoints_in (events_of (turn_right v s)) /\
  setpoints_in (events_of (strafe_right (- v) s)) =
    (fun a => (a.1, (- a.2)%Qc)) <$> setpoints_in (events_of (strafe_right v s)).
Proof.
  intros H. expose s H.
  split; [|split; [|repeat split; reflexivity]].
  - change (total (snd <$> setpoints_in (events_of (turn_right v _))))
      with (v + (- v + (v + (- v + lit 0 1))))%Qc.
    change (lit 0 1) with 0%Qc. ring.
  - change (total (snd <$> setpoints_in (events_of (strafe_right v _))))
      with (v + (- v + (- v + (v + lit 0 1))))%Qc.
    change (lit 0 1) with 0%Qc. ring.
Qed.

Lemma helpers_balance_and_mirror_witness :
  wf start /\
  total (snd <$> setpoints_in (events_of (strafe_right (lit 9 10) start))) = lit 0 1 /\
  setpoints_in (events_of (strafe_right (- lit 9 10)%Qc start)) =
    (fun a => (a.1, (- a.2)%Qc)) <$>
      setpoints_in (events_of (strafe_right (lit 9 10) start)).
Proof.
  assert (W : wf start) by (repeat split; reflexivity).
  split; [exact W|].
  destruct (helpers_balance_and_mirror (lit 9 10) start W) as (_ & Hs & _ & _ & Hm).
  split; [exact Hs | exact Hm].
Defined.

(** ** The schedule of setpoints *)

Lemma table_in_range q :
  0 <= q < 7 -> exists fl fr rl rr, table q = Some (fl, fr, rl, rr).
Proof.
  intros Hq.
  destruct table_values as (T0 & T1 & T2 & T3 & T4 & T5 & T6).
  assert (C : q = 0 \/ q = 1 \/ q = 2 \/ q = 3 \/ q = 4 \/ q = 5 \/ q = 6) by lia.
  destruct C as [->|[->|[->|[->|[->|[->| ->]]]]]]; eauto 6.
Qed.

(** The state a fresh start reaches after a non-empty run: counters in
    closed form, setpoints the table row of the sequence. *)
Lemma fresh_run_shape pids ms ins :
  length pids = 4%nat -> length ms = 4%nat -> Forall released ins -> ins <> [] ->
  update (state_of (main_loop ins (fresh pids ms))) = Z.of_nat (length ins) mod 200 /\
  sequence (state_of (main_loop ins (fresh pids ms))) =
    (Z.of_nat (length ins) / 200) mod 7 /\
  print_count (state_of (main_loop ins (fresh pids ms))) = Z.of_nat (length ins) mod 4 /\
  exists fl fr rl rr,
    table ((Z.of_nat (length ins) / 200) mod 7) = Some (fl, fr, rl, rr) /\
    setpoint <$> vel_pids (state_of (main_loop ins (fresh pids ms))) = [rr; rl; fl; fr].
Proof.
  intros Hp Hm Hr Hne.
  pose proof (fresh_wf pids ms Hp Hm) as H.
  destruct (main_loop_counters ins _ H Hr) as [Eu Eq]; [cbn; lia | cbn; lia|].
  cbn [fresh update sequence] in Eu, Eq. rewrite !Z.add_0_l in Eu, Eq.
  pose proof (main_loop_print_count ins _ H Hr) as Epc.
  cbn [fresh print_count] in Epc. rewrite Z.add_0_l in Epc.
  split; [exact Eu|]. split; [exact Eq|]. split; [apply Epc; lia|].
  destruct (table_in_range ((Z.of_nat (length ins) / 200) mod 7))
    as (fl & fr & rl & rr & T); [apply Z.mod_pos_bound; lia|].
  exists fl, fr, rl, rr. split; [exact T|].
  apply setpoints_after; try assumption. rewrite Eq. exact T.
Qed.

(** X10.  The schedule in closed form.  From a fresh start, after [n >= 1]
    iterations the sequence index is [(n / 200) mod 7] and the four
    controllers hold the setpoints the dispatch has for that index, whatever
    the encoders reported and whatever setpoints, gains or speeds the
    controllers and motors started with. *)
Theorem schedule_closed_form
    (pids : list PID) (ms : list Motor) (ins : list Input) :
  length pids = 4%nat -> length ms = 4%nat -> Forall released ins -> ins <> [] ->
  sequence (state_of (main_loop ins (fresh pids ms))) =
    (Z.of_nat (length ins) / 200) mod 7 /\
  exists fl fr rl rr,
    table ((Z.of_nat (length ins) / 200) mod 7) = Some (fl, fr, rl, rr) /\
    setpoint <$> vel_pids (state_of (main_loop ins (fresh pids ms))) = [rr; rl; fl; fr].
Proof.
  intros Hp Hm Hr Hne.
  destruct (fresh_run_shape pids ms ins Hp Hm Hr Hne) as (_ & Eq & _ & Hrow).
  split; assumption.
Qed.

Lemma schedule_closed_form_witness :
  (length (vel_pids start) = 4%nat /\ length (motors start) = 4%nat /\
   Forall released (replicate 850 idle) /\ replicate 850 idle <> []) /\
  sequence (state_of (main_loop (replicate 850 idle) start)) = 4 /\
  setpoint <$> vel_pids (state_of (main_loop (replicate 850 idle) start)) =
    [lit 9 10; lit (-9) 10; lit 9 10; lit (-9) 10].
Proof.
  assert (R : Forall released (replicate 850 idle))
    by (apply Forall_replicate; reflexivity).
  assert (N : replicate 850 idle <> []) by discriminate.
  split; [split; [reflexivity | split; [reflexivity | split; [exact R | exact N]]]|].
  destruct (schedule_closed_form (vel_pids start) (motors start)
              (replicate 850 idle) eq_refl eq_refl R N)
    as (Eq & fl & fr & rl & rr & T & Es).
  change (fresh (vel_pids start) (motors start)) with start in Eq, Es.
  split; [rewrite Eq; vm_compute; reflexivity|].
  rewrite Es.
  assert (T4 : table ((Z.of_nat (length (replicate 850 idle)) / 200) mod 7) =
               Some (lit 9 10, lit (-9) 10, lit (-9) 10, lit 9 10))
    by (vm_compute; reflexivity).
  rewrite T4 in T. inversion T. reflexivity.
Defined.

(** X11.  The schedule is open-loop and periodic.  Two runs from fresh
    starts whose lengths differ by a multiple of 1400 iterations (7 moves of
    200), the same length included, end with the same progress counter,
    sequence index, print counter and setpoints, even when the encoder
    readings, the controllers and the motors of the two runs differ. *)
Theorem schedule_periodic_open_loop
    (pids pids' : list PID) (ms ms' : list Motor) (ins ins' : list Input) :
  length pids = 4%nat -> length ms = 4%nat ->
  length pids' = 4%nat -> length ms' = 4%nat ->
  Forall released ins -> Forall released ins' -> ins <> [] -> ins' <> [] ->
  (Z.of_nat (length ins') - Z.of_nat (length ins)) mod 1400 = 0 ->
  update (state_of (main_loop ins' (fresh pids' ms'))) =
    update (state_of (main_loop ins (fresh pids ms))) /\
  sequence (state_of (main_loop ins' (fresh pids' ms'))) =
    sequence (state_of (main_loop ins (fresh pids ms))) /\
  print_count (state_of (main_loop ins' (fresh pids' ms'))) =
    print_count (state_of (main_loop ins (fresh pids ms))) /\
  setpoint <$> vel_pids (state_of (main_loop ins' (fresh pids' ms'))) =
    setpoint <$> vel_pids (state_of (main_loop ins (fresh pids ms))).
Proof.
  intros Hp Hm Hp' Hm' Hr Hr' Hne Hne' Hmod.
  destruct (fresh_run_shape pids ms ins Hp Hm Hr Hne)
    as (Eu & Eq & Epc & fl & fr & rl & rr & T & Es).
  destruct (fresh_run_shape pids' ms' ins' Hp' Hm' Hr' Hne')
    as (Eu' & Eq' & Epc' & fl' & fr' & rl' & rr' & T' & Es').
  apply Z.mod_divide in Hmod as [k Hk]; [|lia].
  assert (En : Z.of_nat (length ins') = Z.of_nat (length ins) + k * 1400) by lia.
  assert (Xu : Z.of_nat (length ins') mod 200 = Z.of_nat (length ins) mod 200).
  { rewrite En. replace (k * 1400) with ((k * 7) * 200) by lia.
    apply Z_mod_plus_full. }
  assert (Xp : Z.of_nat (length ins') mod 4 = Z.of_nat (length ins) mod 4).
  { rewrite En. replace (k * 1400) with ((k * 350) * 4) by lia.
    apply Z_mod_plus_full. }
  assert (Xq : (Z.of_nat (length ins') / 200) mod 7 =
               (Z.of_nat (length ins) / 200) mod 7).
  { rewrite En. replace (k * 1400) with ((k * 7) * 200) by lia.
    rewrite Z_div_plus_full by lia. apply Z_mod_plus_full. }
  rewrite Xq in T'. rewrite T in T'. inversion T'; subst.
  rewrite Eu, Eu', Eq, Eq', Epc, Epc', Es, Es', Xu, Xp, Xq.
  repeat split; reflexivity.
Qed.

Lemma schedule_periodic_open_loop_witness :
  (length (vel_pids start) = 4%nat /\ length (motors start) = 4%nat /\
   Forall released (replicate 3 idle) /\ Forall released (replicate 1403 idle) /\
   replicate 3 idle <> [] /\ replicate 1403 idle <> [] /\
   (Z.of_nat (length (replicate 1403 idle)) -
    Z.of_nat (length (replicate 3 idle))) mod 1400 = 0) /\
  setpoint <$> vel_pids (state_of (main_loop (replicate 1403 idle) start)) =
    setpoint <$> vel_pids (state_of (main_loop (replicate 3 idle) start)).
Proof.
  assert (R : Forall released (replicate 3 idle))
    by (apply Forall_replicate; reflexivity).
  assert (R' : Forall released (replicate 1403 idle))
    by (apply Forall_replicate; reflexivity).
  assert (N : replicate 3 idle <> []) by discriminate.
  assert (N' : replicate 1403 idle <> []) by discriminate.
  assert (M : (Z.of_nat (length (replicate 1403 idle)) -
               Z.of_nat (length (replicate 3 idle))) mod 1400 = 0)
    by (vm_compute; reflexivity).
  split.
  { split; [reflexivity|]. split; [reflexivity|]. split; [exact R|].
    split; [exact R'|]. split; [exact N|]. split; [exact N' | exact M]. }
  exact (proj2 (proj2 (proj2
    (schedule_periodic_open_loop (vel_pids start) (vel_pids start)
       (motors start) (motors start) (replicate 3 idle) (replicate 1403 idle)
       eq_refl eq_refl eq_refl eq_refl R R' N N' M)))).
Defined.

(** X12.  Setpoints change only on a transition tick.  From a fresh start,
    after at least one iteration, an iteration that is not the last of its
    move (the number of completed iterations plus one is no multiple of 200)
    leaves sequence index and the four setpoints as it found them. *)
Theorem setpoints_constant_within_move
    (pids : list PID) (ms : list Motor) (ins : list Input) (inp : Input) :
  length pids = 4%nat -> length ms = 4%nat -> Forall released ins -> ins <> [] ->
  (Z.of_nat (length ins) + 1) mod 200 <> 0 ->
  sequence (state_of (loop_body inp (state_of (main_loop ins (fresh pids ms))))) =
    sequence (state_of (main_loop ins (fresh pids ms))) /\
  setpoint <$> vel_pids (state_of (loop_body inp (state_of (main_loop ins (fresh pids ms))))) =
    setpoint <$> vel_pids (state_of (main_loop ins (fresh pids ms))).
Proof.
  intros Hp Hm Hr Hne Hmid.
  pose proof (fresh_wf pids ms Hp Hm) as H.
  pose proof (main_loop_ok ins _ H Hr) as [_ Hwf].
  destruct (fresh_run_shape pids ms ins Hp Hm Hr Hne)
    as (Eu & Eq & _ & fl & fr & rl & rr & T & Es).
  pose proof (loop_body_sequence inp _ Hwf) as Sq.
  assert (Hu : update (state_of (main_loop ins (fresh pids ms))) + 1 < 200).
  { rewrite Eu.
    pose proof (Z.mod_pos_bound (Z.of_nat (length ins)) 200 ltac:(lia)) as B.
    destruct (Z.eq_dec (Z.of_nat (length ins) mod 200) 199) as [E|E]; [|lia].
    exfalso. apply Hmid.
    rewrite <- Zplus_mod_idemp_l, E. reflexivity. }
  unfold next_sequence in Sq. rewrite UPDATES_PER_MOVE_value in Sq.
  destruct (_ + 1 >=? 200) eqn:G in Sq; [apply Z.geb_le in G; lia|].
  split; [exact Sq|].
  rewrite Es. apply loop_body_setpoints; [exact Hwf|].
  rewrite Sq, Eq. exact T.
Qed.

Lemma setpoints_constant_within_move_witness :
  (length (vel_pids start) = 4%nat /\ length (motors start) = 4%nat /\
   Forall released (replicate 250 idle) /\ replicate 250 idle <> [] /\
   (Z.of_nat (length (replicate 250 idle)) + 1) mod 200 <> 0) /\
  setpoint <$> vel_pids (state_of (loop_body idle (state_of (main_loop (replicate 250 idle) start)))) =
    setpoint <$> vel_pids (state_of (main_loop (replicate 250 idle) start)).
Proof.
  assert (R : Forall released (replicate 250 idle))
    by (apply Forall_replicate; reflexivity).
  assert (N : replicate 250 idle <> []) by discriminate.
  assert (M : (Z.of_nat (length (replicate 250 idle)) + 1) mod 200 <> 0)
    by (vm_compute; discriminate).
  split; [split; [reflexivity | split; [reflexivity | split; [exact R | split; [exact N | exact M]]]]|].
  exact (proj2 (setpoints_constant_within_move (vel_pids start) (motors start)
                  (replicate 250 idle) idle eq_refl eq_refl R N M)).
Defined.

(** ** Wheels and captures *)

(** X13.  The four axes are independent within a tick: the speed command a
    motor ends the tick with, and the state its controller ends the tick
    with, depend on that wheel's own encoder reading only.  Two ticks from
    the same state whose inputs agree on wheel [i] leave the same motor and
    the same controller at position [i], whatever the other encoders
    report. *)
Theorem wheels_are_independent (inp inp' : Input) (s : State) (i : nat) :
  wf s -> readings inp i = readings inp' i ->
  motors (state_of (loop_body inp s)) !! i =
    motors (state_of (loop_body inp' s)) !! i /\
  vel_pids (state_of (loop_body inp s)) !! i =
    vel_pids (state_of (loop_body inp' s)) !! i.
Proof.
  intros H Hi. expose s H. rewrite !loop_body_run.
  cbn [state_of fst snd motors vel_pids]. unfold dispatched.
  destruct (table (next_sequence u q)) as [[[[fl fr] rl] rr]|];
    destruct i as [|[|[|[|i]]]]; cbn [lookup list_lookup];
    try rewrite Hi; split; reflexivity.
Qed.

Lemma wheels_are_independent_witness :
  (wf start /\
   readings idle 2 = readings (mkInput false (fun i => if (i =? 2)%nat then lit 0 1 else lit 3 1)) 2) /\
  motors (state_of (loop_body idle start)) !! 2%nat =
    motors (state_of (loop_body (mkInput false (fun i => if (i =? 2)%nat then lit 0 1 else lit 3 1)) start)) !! 2%nat.
Proof.
  assert (W : wf start) by (repeat split; reflexivity).
  split; [split; [exact W | reflexivity]|].
  exact (proj1 (wheels_are_independent idle
                  (mkInput false (fun i => if (i =? 2)%nat then lit 0 1 else lit 3 1))
                  start 2 W eq_refl)).
Defined.

(** X14.  After every completed iteration the four capture slots hold the
    velocities reported on that iteration: no slot is [None] any more, and
    nothing captured on an earlier iteration is left. *)
Theorem captures_hold_latest_readings
    (pre : list Input) (inp : Input) (s : State) :
  wf s -> Forall released pre -> released inp ->
  captures (state_of (main_loop (pre ++ [inp]) s)) =
    [Some (mkCapture (readings inp 0)); Some (mkCapture (readings inp 1));
     Some (mkCapture (readings inp 2)); Some (mkCapture (readings inp 3))].
Proof.
  intros H Hr Hi.
  destruct (main_loop_snoc pre inp s H Hr Hi) as [E _]. rewrite E.
  pose proof (main_loop_ok pre s H Hr) as [_ Hwf].
  revert Hwf. generalize (state_of (main_loop pre s)). intros sp Hwf.
  expose sp Hwf. rewrite loop_body_run. reflexivity.
Qed.

Lemma captures_hold_latest_readings_witness :
  (wf start /\ Forall released [idle; idle] /\ released idle) /\
  captures (state_of (main_loop ([idle; idle] ++ [idle]) start)) =
    [Some (mkCapture (lit 0 1)); Some (mkCapture (lit 0 1));
     Some (mkCapture (lit 0 1)); Some (mkCapture (lit 0 1))].
Proof.
  assert (W : wf start) by (repeat split; reflexivity).
  assert (R : Forall released [idle; idle]) by (repeat constructor).
  split; [split; [exact W | split; [exact R | reflexivity]]|].
  exact (captures_hold_latest_readings [idle; idle] idle start W R eq_refl).
Defined.

(** ** The progress fraction *)

Local Transparent Qcplus Qcmult Qcdiv lit of_int Z.add.






Local Opaque Qcplus Qcmult Qcdiv lit of_int Z.add.



(** ** The speed command over a run *)



